(** * Kube-Shield operator: the pod reconciler and the ShieldPolicy predicates

    A shallow embedding of
      - [pkg/apis/shield/v1alpha1] (the ShieldPolicy types and predicates),
      - [pkg/controller/pod_controller.go] (the Pod reconciler),
    followed by the properties of the enforcement loop.

    Go strings are byte strings ([string]); [int64] fields are [Z] with the
    wrap-around written out; calls to the API server, to the audit service and
    to the clock are threaded through a small state monad that records every
    one of them in order. *)

From Stdlib Require Import ZArith List String Ascii Bool Lia.
Import ListNotations.

Local Open Scope string_scope.
Local Open Scope Z_scope.

(* ===================================================================== *)
(** ** Go library functions used by the operator *)
(* ===================================================================== *)

Module strings.

(** [strings.Contains(s, substr)]. *)
Fixpoint Contains (s substr : string) : bool :=
  prefix substr s ||
  match s with
  | EmptyString => false
  | String _ s' => Contains s' substr
  end.

(** The scan behind [strings.Split(s, sep)] for a non-empty [sep]: cut at
    every leftmost, non-overlapping occurrence of [sep].  [skip] counts the
    bytes of a separator still to be passed over, [cur] holds the bytes of
    the current piece, last byte first. *)
Fixpoint splitFrom (sep : string) (skip : nat) (cur : list ascii) (s : string)
  : list string :=
  match s with
  | EmptyString => [string_of_list_ascii (rev cur)]
  | String c s' =>
      match skip with
      | S k => splitFrom sep k cur s'
      | O =>
          if prefix sep s
          then string_of_list_ascii (rev cur)
                 :: splitFrom sep (String.length sep - 1) [] s'
          else splitFrom sep 0 (c :: cur) s'
      end
  end.

(** [strings.Split(s, sep)], for the non-empty separators the operator
    passes. *)
Definition Split (s sep : string) : list string := splitFrom sep 0 [] s.

End strings.

Module int64.
Definition min : Z := - 2 ^ 63.
Definition max : Z := 2 ^ 63 - 1.
(** Two's-complement wrap-around of Go's [int64] arithmetic. *)
Definition wrap (z : Z) : Z := (z + 2 ^ 63) mod 2 ^ 64 - 2 ^ 63.
End int64.

(** An instant, as Unix nanoseconds. *)
Definition Time := Z.

Module time.

Definition digit (d : Z) : ascii := ascii_of_nat (48 + Z.to_nat d).

(** Decimal digits of [n >= 0], least significant first, [w] of them. *)
Fixpoint digitsLSB (w : nat) (n : Z) : list ascii :=
  match w with
  | O => []
  | S w' => digit (n mod 10) :: digitsLSB w' (n / 10)
  end.

(** Number of decimal digits of [n >= 0] (at least one). *)
Definition width (n : Z) : nat :=
  if n <? 10 then 1%nat else S (Z.to_nat (Z.log2 n) / 3).

Fixpoint stripZeros (keep : nat) (l : list ascii) : list ascii :=
  match l with
  | c :: l' =>
      if (Ascii.eqb c "0" && (keep <? List.length l)%nat)%bool
      then stripZeros keep l' else l
  | [] => []
  end.

(** [appendInt(b, x, width)] of package [time]: decimal, zero-padded to at
    least [w] digits, with a leading minus sign for negative numbers. *)
Definition appendInt (x : Z) (w : nat) : string :=
  let u := Z.abs x in
  let ds := stripZeros w (rev (digitsLSB (Nat.max w (S (width u))) u)) in
  let sign := if x <? 0 then "-" else "" in
  (sign ++ string_of_list_ascii ds)%string.

(** Civil date of a day number counted from 1970-01-01 (proleptic
    Gregorian calendar). *)
Definition civil (days : Z) : Z * Z * Z :=
  let z := days + 719468 in
  let era := z / 146097 in
  let doe := z - era * 146097 in
  let yoe := (doe - doe / 1460 + doe / 36524 - doe / 146096) / 365 in
  let doy := doe - (365 * yoe + yoe / 4 - yoe / 100) in
  let mp := (5 * doy + 2) / 153 in
  let d := doy - (153 * mp + 2) / 5 + 1 in
  let m := if mp <? 10 then mp + 3 else mp - 9 in
  let y := yoe + era * 400 + (if m <=? 2 then 1 else 0) in
  (y, m, d).

(** [t.Format(time.RFC3339)] for an instant shown in the zone [offset]
    seconds east of UTC: ["2006-01-02T15:04:05Z07:00"].  The zone is
    printed from the offset in whole minutes (Go's [offset / 60], which
    truncates towards zero), sign included. *)
Definition FormatRFC3339 (offset : Z) (t : Time) : string :=
  let secs := t / 1000000000 + offset in
  let '(y, m, d) := civil (secs / 86400) in
  let sod := secs mod 86400 in
  let zone :=
    if offset =? 0 then "Z"
    else
      let minutes := Z.quot offset 60 in
      let sign := if minutes <? 0 then "-" else "+" in
      let a := Z.abs minutes in
      let hh := appendInt (a / 60) 2 in
      let mm := appendInt (a mod 60) 2 in
      (sign ++ hh ++ ":" ++ mm)%string in
  let hour := appendInt (sod / 3600) 2 in
  let minute := appendInt (sod / 60 mod 60) 2 in
  let second := appendInt (sod mod 60) 2 in
  (appendInt y 4 ++ "-" ++ appendInt m 2 ++ "-" ++ appendInt d 2 ++ "T"
     ++ hour ++ ":" ++ minute ++ ":" ++ second ++ zone)%string.

End time.

(* ===================================================================== *)
(** ** pkg/apis/shield/v1alpha1: the ShieldPolicy resource *)
(* ===================================================================== *)

Module v1alpha1.

(** [ShieldPolicySpec]. *)
Record ShieldPolicySpec := {
  BlockPrivileged : bool;
  AllowedRegistries : list string;
  EnforcementMode : string;
  TargetNamespaces : list string
}.

(** [metav1.Condition], as far as the operator fills it. *)
Record Condition := {
  Type_ : string;
  ConditionStatus : string;
  ConditionReason : string;
  ConditionMessage : string;
  LastTransitionTime : Time
}.

(** [ShieldPolicyStatus]; [LastEnforcementTime] is a nullable pointer. *)
Record ShieldPolicyStatus := {
  Phase : string;
  LastEnforcementTime : option Time;
  ViolationsCount : Z;
  TerminationsCount : Z;
  Conditions : list Condition;
  ObservedGeneration : Z;
  Message : string
}.

(** [ShieldPolicy]: the object metadata the operator reads, the spec and
    the status. *)
Record ShieldPolicy := {
  Name : string;
  Namespace : string;
  Generation : Z;
  Spec : ShieldPolicySpec;
  Status : ShieldPolicyStatus
}.

Definition IsEnforcing (s : ShieldPolicy) : bool :=
  (EnforcementMode (Spec s) =? "")%string
  || (EnforcementMode (Spec s) =? "Enforce")%string.

Definition IsAuditing (s : ShieldPolicy) : bool :=
  (EnforcementMode (Spec s) =? "Audit")%string.

Definition IsDisabled (s : ShieldPolicy) : bool :=
  (EnforcementMode (Spec s) =? "Disabled")%string.

Definition ShouldBlockPrivileged (s : ShieldPolicy) : bool :=
  BlockPrivileged (Spec s) && negb (IsDisabled s).

Definition IsRegistryAllowed (s : ShieldPolicy) (registry : string) : bool :=
  if (List.length (AllowedRegistries (Spec s)) =? 0)%nat then true
  else existsb (fun allowed => (allowed =? registry)%string
                               || (allowed =? "*")%string)
               (AllowedRegistries (Spec s)).

Definition ShouldApplyToNamespace (s : ShieldPolicy) (namespace : string)
  : bool :=
  if (namespace =? "kube-system")%string then false
  else if (List.length (TargetNamespaces (Spec s)) =? 0)%nat then true
  else existsb (fun ns => (ns =? namespace)%string)
               (TargetNamespaces (Spec s)).

End v1alpha1.

(* ===================================================================== *)
(** ** k8s.io/api/core/v1: the part of a Pod the reconciler reads *)
(* ===================================================================== *)

Module corev1.

(** [SecurityContext]: both fields are nullable pointers in Go. *)
Record SecurityContext := {
  Privileged : option bool;
  RunAsUser : option Z
}.

Module Container.
Record t := {
  Name : string;
  Image : string;
  SecurityContext : option corev1.SecurityContext
}.
End Container.

Record PodSpec := {
  HostNetwork : bool;
  NodeName : string;
  Containers : list Container.t;
  InitContainers : list Container.t
}.

Definition PodSucceeded : string := "Succeeded".
Definition PodFailed : string := "Failed".

Record PodStatus := { Phase : string }.

Record Pod := {
  Name : string;
  Namespace : string;
  DeletionTimestamp : option Time;
  Spec : PodSpec;
  Status : PodStatus
}.

End corev1.

(* ===================================================================== *)
(** ** pkg/controller/pod_controller.go *)
(* ===================================================================== *)

Module controller.

Import v1alpha1.

(** [SecurityEvent]: the record posted to the audit service. *)
Record SecurityEvent := {
  Timestamp : string;
  EventType : string;
  Severity : string;
  PodName : string;
  Namespace : string;
  Container : string;
  Image : string;
  Reason : string;
  Action : string;
  PolicyName : string;
  NodeName : string;
  Description : string
}.

(** [PodReconciler]: its configuration.  The API client and the HTTP client
    are the [Cluster] below. *)
Record PodReconciler := { AuditServiceURL : string }.

(** [ctrl.Request] and [ctrl.Result]. *)
Record Request := { ReqNamespace : string; ReqName : string }.
Record Result := { Requeue : bool; RequeueAfter : Z }.
Definition emptyResult : Result := {| Requeue := false; RequeueAfter := 0 |}.

(** Go's [error] values, as far as the reconciler tells them apart. *)
Inductive error :=
| ErrNotFound
| ErrConflict
| ErrOther (msg : string).

(** [errors.IsNotFound]. *)
Definition IsNotFound (e : error) : bool :=
  match e with ErrNotFound => true | _ => false end.

(** *** The outside world *)

(** Every call that leaves the reconciler: to the API server, to the
    audit service, to the clock. *)
Inductive Call :=
| ReadClock
| GetPod (namespace name : string)
| ListPolicies
| Post (url : string) (body : SecurityEvent)
| DeletePod (namespace name : string) (gracePeriodSeconds : Z)
| UpdateStatus (policy : ShieldPolicy).

(** What the outside answers.  The answer to a delete, to a status write
    and to a clock reading may depend on how many calls went out before
    it. *)
Record Cluster := {
  getPod : string -> string -> error + corev1.Pod;
  listPolicies : error + list ShieldPolicy;
  deletePod : nat -> option error;
  updateStatus : nat -> option error;
  newRequest : string -> bool;
  clock : nat -> Time;
  zone : Z
}.

(** The state of one pass: the calls made so far, oldest first. *)
Definition Trace := list Call.

Definition M (A : Type) : Type := Trace -> A * Trace.

Definition ret {A} (a : A) : M A := fun st => (a, st).

Definition bind {A B} (m : M A) (k : A -> M B) : M B :=
  fun st => let (a, st') := m st in k a st'.

Declare Scope go_scope.
Delimit Scope go_scope with go.
Notation "x <- m ;; k" := (bind m (fun x => k))
  (at level 61, m at next level, right associativity) : go_scope.
Notation "m ;; k" := (bind m (fun _ => k))
  (at level 61, right associativity) : go_scope.
Local Open Scope go_scope.

(** Make the call [c]; the answer is chosen from its position. *)
Definition call {A} (c : Call) (answer : nat -> A) : M A :=
  fun st => (answer (List.length st), (st ++ [c])%list).

Section Reconciler.

Variable world : Cluster.
Variable r : PodReconciler.

(** [time.Now()] and [metav1.Now()]. *)
Definition Now : M Time := call ReadClock (clock world).

Definition Get (req : Request) : M (error + corev1.Pod) :=
  call (GetPod (ReqNamespace req) (ReqName req))
       (fun _ => getPod world (ReqNamespace req) (ReqName req)).

Definition List_ : M (error + list ShieldPolicy) :=
  call ListPolicies (fun _ => listPolicies world).

Definition Delete (pod : corev1.Pod) (gracePeriodSeconds : Z)
  : M (option error) :=
  call (DeletePod (corev1.Namespace pod) (corev1.Name pod)
                  gracePeriodSeconds)
       (deletePod world).

Definition StatusUpdate (policy : ShieldPolicy) : M (option error) :=
  call (UpdateStatus policy) (updateStatus world).

(** [getActionString]. *)
Definition getActionString (policy : ShieldPolicy) : string :=
  if IsEnforcing policy then "TERMINATED" else "AUDIT".

(** [extractRegistry].  [parts[0]] cannot fail: [strings.Split] never
    returns an empty slice for a non-empty separator. *)
Definition extractRegistry (image : string) : string :=
  if negb (strings.Contains image "/") then "docker.io"
  else
    let parts := strings.Split image "/" in
    match parts with
    | firstPart :: _ =>
        if strings.Contains firstPart "." || strings.Contains firstPart ":"
        then firstPart
        else "docker.io"
    | [] => ""
    end.

(** The body of the container loop of [checkPodViolations]: the events
    one container adds, in the order of the three checks. *)
Definition containerViolations (now : string) (pod : corev1.Pod)
           (policy : ShieldPolicy) (container : corev1.Container.t)
  : list SecurityEvent :=
  let cname := corev1.Container.Name container in
  let cimage := corev1.Container.Image container in
  let privileged :=
    if ShouldBlockPrivileged policy then
     match corev1.Container.SecurityContext container with
     | Some sc =>
         match corev1.Privileged sc with
         | Some true =>
             [ {| Timestamp := now;
                  EventType := "PRIVILEGED_CONTAINER";
                  Severity := "CRITICAL";
                  PodName := corev1.Name pod;
                  Namespace := corev1.Namespace pod;
                  Container := cname;
                  Image := cimage;
                  Reason := "Privileged container detected";
                  Action := getActionString policy;
                  PolicyName := Name policy;
                  NodeName := corev1.NodeName (corev1.Spec pod);
                  Description :=
                    "Container '" ++ cname
                      ++ "' is running in privileged mode which violates policy '"
                      ++ Name policy ++ "'" |} ]
         | _ => []
         end
     | None => []
     end
   else [] in
  let registryCheck :=
   if (0 <? List.length (AllowedRegistries (Spec policy)))%nat then
     let registry := extractRegistry cimage in
     if negb (IsRegistryAllowed policy registry) then
       [ {| Timestamp := now;
            EventType := "DISALLOWED_REGISTRY";
            Severity := "HIGH";
            PodName := corev1.Name pod;
            Namespace := corev1.Namespace pod;
            Container := cname;
            Image := cimage;
            Reason := "Image from disallowed registry: " ++ registry;
            Action := getActionString policy;
            PolicyName := Name policy;
            NodeName := corev1.NodeName (corev1.Spec pod);
            Description :=
              "Container '" ++ cname ++ "' uses image from registry '"
                ++ registry ++ "' which is not in the allowed list" |} ]
     else []
   else [] in
  let rootUser :=
   match corev1.Container.SecurityContext container with
   | Some sc =>
       match corev1.RunAsUser sc with
       | Some uid =>
           if uid =? 0 then
             [ {| Timestamp := now;
                  EventType := "ROOT_USER";
                  Severity := "HIGH";
                  PodName := corev1.Name pod;
                  Namespace := corev1.Namespace pod;
                  Container := cname;
                  Image := cimage;
                  Reason := "Container running as root user";
                  Action := "AUDIT";
                  PolicyName := Name policy;
                  NodeName := corev1.NodeName (corev1.Spec pod);
                  Description :=
                    "Container '" ++ cname
                      ++ "' is configured to run as root (UID 0)" |} ]
           else []
       | None => []
       end
   | None => []
   end in
  (privileged ++ registryCheck ++ rootUser)%list.

(** [checkPodViolations] after its clock reading: [now] is the value of
    [time.Now().UTC().Format(time.RFC3339)]. *)
Definition checkPodViolationsAt (now : string) (pod : corev1.Pod)
           (policy : ShieldPolicy) : list SecurityEvent :=
  let hostNetwork :=
   if corev1.HostNetwork (corev1.Spec pod) then
     [ {| Timestamp := now;
          EventType := "HOST_NETWORK";
          Severity := "HIGH";
          PodName := corev1.Name pod;
          Namespace := corev1.Namespace pod;
          Container := "";
          Image := "";
          Reason := "Pod using host network";
          Action := "AUDIT";
          PolicyName := Name policy;
          NodeName := corev1.NodeName (corev1.Spec pod);
          Description :=
            "Pod '" ++ corev1.Name pod
              ++ "' is using host network which can bypass network policies" |} ]
   else [] in
  let allContainers :=
    (corev1.Containers (corev1.Spec pod)
       ++ corev1.InitContainers (corev1.Spec pod))%list in
  (hostNetwork
     ++ flat_map (containerViolations now pod policy) allContainers)%list.

(** [checkPodViolations]. *)
Definition checkPodViolations (pod : corev1.Pod) (policy : ShieldPolicy)
  : M (list SecurityEvent) :=
  t <- Now ;;
  ret (checkPodViolationsAt (time.FormatRFC3339 0 t) pod policy).

(** [sendSecurityEvent]: nothing leaves the process when no URL is
    configured or when the request cannot be built; the response is only
    logged. *)
Definition sendSecurityEvent (event : SecurityEvent) : M unit :=
  if (AuditServiceURL r =? "")%string then ret tt
  else
    let url := (AuditServiceURL r ++ "/log")%string in
    if negb (newRequest world url) then ret tt
    else call (Post url event) (fun _ => tt).

(** The in-memory part of [updatePolicyStatus]: the policy object after
    the assignments to its status, [now] being the value of
    [metav1.Now()] and [localZone] the zone [now.Format] prints it in. *)
Definition statusAfter (now : Time) (localZone : Z)
           (policy : ShieldPolicy) (wasTerminated : bool) : ShieldPolicy :=
  let st := Status policy in
  let st1 :=
    {| Phase := "Active";
       LastEnforcementTime := Some now;
       ViolationsCount := int64.wrap (ViolationsCount st + 1);
       TerminationsCount := TerminationsCount st;
       Conditions := Conditions st;
       ObservedGeneration := ObservedGeneration st;
       Message := Message st |} in
  let st2 :=
    if wasTerminated then
      {| Phase := Phase st1;
         LastEnforcementTime := LastEnforcementTime st1;
         ViolationsCount := ViolationsCount st1;
         TerminationsCount := int64.wrap (TerminationsCount st1 + 1);
         Conditions := Conditions st1;
         ObservedGeneration := ObservedGeneration st1;
         Message :=
           "Last termination at " ++ time.FormatRFC3339 localZone now |}
    else st1 in
  {| Name := Name policy;
     v1alpha1.Namespace := v1alpha1.Namespace policy;
     Generation := Generation policy;
     Spec := Spec policy;
     Status := st2 |}.

(** [updatePolicyStatus]: mutates the caller's policy object (returned
    here) and writes it; a failed write is only logged, and the answer to a
    successful one carries the status just written. *)
Definition updatePolicyStatus (policy : ShieldPolicy) (wasTerminated : bool)
  : M ShieldPolicy :=
  now <- Now ;;
  let policy' := statusAfter now (zone world) policy wasTerminated in
  _ <- StatusUpdate policy' ;;
  ret policy'.

(** The loop over the violations of one policy in [Reconcile].  [Some]
    is a [return] out of [Reconcile]; [None] means that the loop ran to
    its end. *)
Fixpoint violationLoop (pod : corev1.Pod) (policy : ShieldPolicy)
         (violations : list SecurityEvent)
  : M (option (Result * option error)) :=
  match violations with
  | [] => ret None
  | violation :: rest =>
      sendSecurityEvent violation ;;
      if IsEnforcing policy then
        err <- Delete pod 0 ;;
        match err with
        | Some e =>
            if negb (IsNotFound e) then ret (Some (emptyResult, Some e))
            else
              _ <- updatePolicyStatus policy true ;;
              ret (Some (emptyResult, None))
        | None =>
            _ <- updatePolicyStatus policy true ;;
            ret (Some (emptyResult, None))
        end
      else
        policy' <- updatePolicyStatus policy false ;;
        violationLoop pod policy' rest
  end.

(** The loop over [policies.Items] in [Reconcile].  Each iteration works
    on its own copy of the list element. *)
Fixpoint policyLoop (pod : corev1.Pod) (items : list ShieldPolicy)
  : M (Result * option error) :=
  match items with
  | [] => ret (emptyResult, None)
  | policy :: rest =>
      if negb (ShouldApplyToNamespace policy (corev1.Namespace pod))
      then policyLoop pod rest
      else if IsDisabled policy then policyLoop pod rest
      else
        violations <- checkPodViolations pod policy ;;
        out <- violationLoop pod policy violations ;;
        match out with
        | Some res => ret res
        | None => policyLoop pod rest
        end
  end.

(** [Reconcile]. *)
Definition Reconcile (req : Request) : M (Result * option error) :=
  if (ReqNamespace req =? "kube-system")%string then ret (emptyResult, None)
  else
    got <- Get req ;;
    match got with
    | inl err =>
        if IsNotFound err then ret (emptyResult, None)
        else ret (emptyResult, Some err)
    | inr pod =>
        match corev1.DeletionTimestamp pod with
        | Some _ => ret (emptyResult, None)
        | None =>
            if (corev1.Phase (corev1.Status pod) =? corev1.PodSucceeded)%string
               || (corev1.Phase (corev1.Status pod) =? corev1.PodFailed)%string
            then ret (emptyResult, None)
            else
              listed <- List_ ;;
              match listed with
              | inl err => ret (emptyResult, Some err)
              | inr policies => policyLoop pod policies
              end
        end
    end.

End Reconciler.

End controller.

(* ===================================================================== *)
(** ** Concrete pods, policies and clusters *)
(* ===================================================================== *)

Module Scenario.

Import controller.

Definition container (name image : string)
           (sc : option corev1.SecurityContext) : corev1.Container.t :=
  {| corev1.Container.Name := name;
     corev1.Container.Image := image;
     corev1.Container.SecurityContext := sc |}.

(** A running pod [default/web] on [node-1]. *)
Definition pod (hostNetwork : bool) (containers : list corev1.Container.t)
  : corev1.Pod :=
  {| corev1.Name := "web";
     corev1.Namespace := "default";
     corev1.DeletionTimestamp := None;
     corev1.Spec :=
       {| corev1.HostNetwork := hostNetwork;
          corev1.NodeName := "node-1";
          corev1.Containers := containers;
          corev1.InitContainers := [] |};
     corev1.Status := {| corev1.Phase := "Running" |} |}.

Definition clean : corev1.Container.t := container "app" "nginx" None.

Definition asRoot : corev1.Container.t :=
  container "app" "nginx"
            (Some {| corev1.Privileged := None; corev1.RunAsUser := Some 0 |}).

Definition freshStatus : v1alpha1.ShieldPolicyStatus :=
  {| v1alpha1.Phase := "";
     v1alpha1.LastEnforcementTime := None;
     v1alpha1.ViolationsCount := 0;
     v1alpha1.TerminationsCount := 0;
     v1alpha1.Conditions := [];
     v1alpha1.ObservedGeneration := 0;
     v1alpha1.Message := "" |}.

(** A policy [default/strict] that blocks privileged containers and
    allows [docker.io] only, in the given mode. *)
Definition policy (mode : string) : v1alpha1.ShieldPolicy :=
  {| v1alpha1.Name := "strict";
     v1alpha1.Namespace := "default";
     v1alpha1.Generation := 1;
     v1alpha1.Spec :=
       {| v1alpha1.BlockPrivileged := true;
          v1alpha1.AllowedRegistries := ["docker.io"];
          v1alpha1.EnforcementMode := mode;
          v1alpha1.TargetNamespaces := [] |};
     v1alpha1.Status := freshStatus |}.

(** A cluster that holds [p] and [policies], answers every status write
    with [write], accepts every delete, and whose clock advances by one
    second per call, starting at 2023-11-14T22:13:20Z. *)
Definition cluster (p : corev1.Pod) (policies : list v1alpha1.ShieldPolicy)
           (write : option error) : Cluster :=
  {| getPod := fun _ _ => inr p;
     listPolicies := inr policies;
     deletePod := fun _ => None;
     updateStatus := fun _ => write;
     newRequest := fun _ => true;
     clock := fun n => (1700000000 + Z.of_nat n) * 1000000000;
     zone := 0 |}.

Definition reconciler : PodReconciler :=
  {| AuditServiceURL := "http://audit-service:8000" |}.

Definition request : Request :=
  {| ReqNamespace := "default"; ReqName := "web" |}.

End Scenario.

(* ===================================================================== *)
(** ** Vocabulary of the properties *)
(* ===================================================================== *)

Module Props.

Import controller.

(** The byte [c] occurs in [s]. *)
Fixpoint hasByte (c : ascii) (s : string) : bool :=
  match s with
  | EmptyString => false
  | String d s' => Ascii.eqb d c || hasByte c s'
  end.

(** The substring of [s] before the first [c] (all of [s] without one). *)
Fixpoint beforeFirst (c : ascii) (s : string) : string :=
  match s with
  | EmptyString => EmptyString
  | String d s' => if Ascii.eqb d c then EmptyString
                   else String d (beforeFirst c s')
  end.

(** Registry extraction as the specification words it: no ['/'] gives the
    default public registry; otherwise the substring before the first ['/']
    is the registry if it contains ['.'] or [':'], else the default. *)
Definition spec_registry (image : string) : string :=
  if negb (hasByte "/" image) then "docker.io"
  else
    let host := beforeFirst "/" image in
    if hasByte "." host || hasByte ":" host then host else "docker.io".

Definition isDelete (c : Call) : bool :=
  match c with DeletePod _ _ _ => true | _ => false end.

Definition isUpdate (c : Call) : bool :=
  match c with UpdateStatus _ => true | _ => false end.

Definition isPost (c : Call) : bool :=
  match c with Post _ _ => true | _ => false end.

(** How many calls of [t] satisfy [f]. *)
Definition count (f : Call -> bool) (t : Trace) : nat :=
  List.length (filter f t).

(** The calls [sendSecurityEvent] makes for [event]. *)
Definition posts (world : Cluster) (r : PodReconciler)
           (event : SecurityEvent) : Trace :=
  if (AuditServiceURL r =? "")%string then []
  else if newRequest world (AuditServiceURL r ++ "/log") then
         [Post (AuditServiceURL r ++ "/log") event]
       else [].

(** [event] with its timestamp replaced. *)
Definition withTimestamp (now : string) (event : SecurityEvent)
  : SecurityEvent :=
  {| Timestamp := now;
     EventType := EventType event;
     Severity := Severity event;
     PodName := PodName event;
     Namespace := Namespace event;
     Container := Container event;
     Image := Image event;
     Reason := Reason event;
     Action := Action event;
     PolicyName := PolicyName event;
     NodeName := NodeName event;
     Description := Description event |}.


(** [world] with other answers to the status writes. *)
Definition withUpdateStatus (answers : nat -> option error)
           (world : Cluster) : Cluster :=
  {| getPod := getPod world;
     listPolicies := listPolicies world;
     deletePod := deletePod world;
     updateStatus := answers;
     newRequest := newRequest world;
     clock := clock world;
     zone := zone world |}.

(** [world] with another list of policies. *)
Definition withPolicies (items : list v1alpha1.ShieldPolicy)
           (world : Cluster) : Cluster :=
  {| getPod := getPod world;
     listPolicies := inr items;
     deletePod := deletePod world;
     updateStatus := updateStatus world;
     newRequest := newRequest world;
     clock := clock world;
     zone := zone world |}.

(** The shape of the calls of a pass with respect to termination: either
    no delete at all, or one delete that is the last call, or one delete
    followed by nothing but the status write (with its clock reading) of
    the policy that terminated the pod. *)
Inductive stopsAfterDelete : Trace -> Prop :=
| no_delete (t : Trace) :
    count isDelete t = 0%nat -> stopsAfterDelete t
| delete_last (pre : Trace) namespace name grace :
    count isDelete pre = 0%nat ->
    stopsAfterDelete (pre ++ [DeletePod namespace name grace])%list
| delete_then_write (pre : Trace) namespace name grace policy :
    count isDelete pre = 0%nat ->
    stopsAfterDelete
      (pre ++ [DeletePod namespace name grace; ReadClock;
               UpdateStatus policy])%list.

Definition isPrivileged (c : corev1.Container.t) : bool :=
  match corev1.Container.SecurityContext c with
  | Some sc => match corev1.Privileged sc with
               | Some true => true
               | _ => false
               end
  | None => false
  end.

Definition runsAsRoot (c : corev1.Container.t) : bool :=
  match corev1.Container.SecurityContext c with
  | Some sc => match corev1.RunAsUser sc with
               | Some uid => uid =? 0
               | None => false
               end
  | None => false
  end.

(** The pod's only issue under [policy] is its use of the host network: no
    container (init containers included) is privileged, comes from a
    registry the policy does not allow, or runs as root. *)
Definition onlyHostNetwork (policy : v1alpha1.ShieldPolicy)
           (pod : corev1.Pod) : bool :=
  corev1.HostNetwork (corev1.Spec pod)
  && forallb (fun c =>
                negb (isPrivileged c)
                && v1alpha1.IsRegistryAllowed
                     policy (extractRegistry (corev1.Container.Image c))
                && negb (runsAsRoot c))
             (corev1.Containers (corev1.Spec pod)
                ++ corev1.InitContainers (corev1.Spec pod))%list.

End Props.

(* ===================================================================== *)
(** ** pkg/config: the operator's configuration *)
(* ===================================================================== *)

Module strconv.

(** [strconv.ParseBool]: [None] is its syntax error. *)
Definition ParseBool (str : string) : option bool :=
  if existsb (String.eqb str) ["1"; "t"; "T"; "TRUE"; "true"; "True"]
  then Some true
  else if existsb (String.eqb str) ["0"; "f"; "F"; "FALSE"; "false"; "False"]
       then Some false
       else None.

End strconv.

Module config.

(** [Config]; [SyncPeriod] is a [time.Duration], in nanoseconds. *)
Record Config := {
  MetricsAddr : string;
  ProbeAddr : string;
  EnableLeaderElection : bool;
  LeaderElectionID : string;
  AuditServiceURL : string;
  SyncPeriod : Z;
  Namespace : string;
  LogLevel : Z
}.

Definition Minute : Z := 60 * 1000000000.

Section Environment.

(** [os.Getenv]: the value of a variable, empty when it is not set. *)
Variable Getenv : string -> string.
(** [strconv.Atoi] and [time.ParseDuration]; [None] is an error. *)
Variable Atoi : string -> option Z.
Variable ParseDuration : string -> option Z.

Definition getEnvOrDefault (key defaultValue : string) : string :=
  let value := Getenv key in
  if negb (value =? "")%string then value else defaultValue.

Definition getEnvBoolOrDefault (key : string) (defaultValue : bool) : bool :=
  let value := Getenv key in
  if (value =? "")%string then defaultValue
  else match strconv.ParseBool value with
       | None => defaultValue
       | Some b => b
       end.

Definition getEnvIntOrDefault (key : string) (defaultValue : Z) : Z :=
  let value := Getenv key in
  if (value =? "")%string then defaultValue
  else match Atoi value with
       | None => defaultValue
       | Some i => i
       end.

Definition getEnvDurationOrDefault (key : string) (defaultValue : Z) : Z :=
  let value := Getenv key in
  if (value =? "")%string then defaultValue
  else match ParseDuration value with
       | None => defaultValue
       | Some d => d
       end.

Definition NewConfig : Config :=
  {| MetricsAddr := getEnvOrDefault "METRICS_ADDR" ":8080";
     ProbeAddr := getEnvOrDefault "PROBE_ADDR" ":8081";
     EnableLeaderElection :=
       getEnvBoolOrDefault "ENABLE_LEADER_ELECTION" false;
     LeaderElectionID :=
       getEnvOrDefault "LEADER_ELECTION_ID" "kubeshield-operator-lock";
     AuditServiceURL :=
       getEnvOrDefault "AUDIT_SERVICE_URL" "http://audit-service:8000";
     SyncPeriod := getEnvDurationOrDefault "SYNC_PERIOD" (10 * Minute);
     Namespace := Getenv "WATCH_NAMESPACE";
     LogLevel := getEnvIntOrDefault "LOG_LEVEL" 0 |}.

End Environment.

End config.

(* ===================================================================== *)
(** ** cmd: how the operator is put together *)
(* ===================================================================== *)

Module operator.

(** [NewPodReconciler] of pod_controller.go, as far as [PodReconciler] is
    modelled. *)
Definition NewPodReconciler (auditServiceURL : string)
  : controller.PodReconciler :=
  {| controller.AuditServiceURL := auditServiceURL |}.

(** The pod reconciler [main] builds: the flag [-audit-service-url], when
    given, overrides the configuration read from the environment. *)
Definition podReconciler (cfg : config.Config) (flag : option string)
  : controller.PodReconciler :=
  let auditServiceURL :=
    match flag with
    | Some value => value
    | None => config.AuditServiceURL cfg
    end in
  NewPodReconciler auditServiceURL.

End operator.

(* ===================================================================== *)
(** ** pkg/controller/policy_controller.go *)
(* ===================================================================== *)

Module policy_controller.

Import v1alpha1.

(** Every call that leaves the policy reconciler. *)
Inductive Call :=
| ReadClock
| GetPolicy (namespace name : string)
| UpdateStatus (policy : ShieldPolicy).

(** What the outside answers; a status write by its position among the
    calls, as for the pod reconciler. *)
Record Cluster := {
  getPolicy : string -> string -> controller.error + ShieldPolicy;
  updateStatus : nat -> option controller.error;
  clock : nat -> Time
}.

Definition Trace := list Call.

Definition M (A : Type) : Type := Trace -> A * Trace.

Definition ret {A} (a : A) : M A := fun st => (a, st).

Definition bind {A B} (m : M A) (k : A -> M B) : M B :=
  fun st => let (a, st') := m st in k a st'.

Definition call {A} (c : Call) (answer : nat -> A) : M A :=
  fun st => (answer (List.length st), (st ++ [c])%list).

Definition ConditionTrue : string := "True".

(** [30 * time.Second]. *)
Definition requeuePeriod : Z := 30 * 1000000000.

(** [ctrl.Result{RequeueAfter: 30 * time.Second}]. *)
Definition requeueLater : controller.Result :=
  {| controller.Requeue := false; controller.RequeueAfter := requeuePeriod |}.

(** The policy object after the assignments of the block that initialises
    the status. *)
Definition initialised (now : Time) (policy : ShieldPolicy) : ShieldPolicy :=
  {| Name := Name policy;
     Namespace := Namespace policy;
     Generation := Generation policy;
     Spec := Spec policy;
     Status :=
       {| Phase := "Active";
          LastEnforcementTime := LastEnforcementTime (Status policy);
          ViolationsCount := ViolationsCount (Status policy);
          TerminationsCount := TerminationsCount (Status policy);
          Conditions :=
            [ {| Type_ := "Ready";
                 ConditionStatus := ConditionTrue;
                 ConditionReason := "PolicyActive";
                 ConditionMessage :=
                   "ShieldPolicy is active and monitoring pods";
                 LastTransitionTime := now |} ];
          ObservedGeneration := Generation policy;
          Message := "Policy is active and enforcing" |} |}.

(** The policy object after the assignments of the block that records a
    changed generation. *)
Definition observed (now : Time) (policy : ShieldPolicy) : ShieldPolicy :=
  {| Name := Name policy;
     Namespace := Namespace policy;
     Generation := Generation policy;
     Spec := Spec policy;
     Status :=
       {| Phase := Phase (Status policy);
          LastEnforcementTime := LastEnforcementTime (Status policy);
          ViolationsCount := ViolationsCount (Status policy);
          TerminationsCount := TerminationsCount (Status policy);
          Conditions :=
            [ {| Type_ := "Ready";
                 ConditionStatus := ConditionTrue;
                 ConditionReason := "PolicyUpdated";
                 ConditionMessage :=
                   "ShieldPolicy configuration was updated";
                 LastTransitionTime := now |} ];
          ObservedGeneration := Generation policy;
          Message := "Policy configuration updated" |} |}.

Section Reconciler.

Variable world : Cluster.

Definition Now : M Time := call ReadClock (clock world).

Definition Get (req : controller.Request)
  : M (controller.error + ShieldPolicy) :=
  call (GetPolicy (controller.ReqNamespace req) (controller.ReqName req))
       (fun _ => getPolicy world (controller.ReqNamespace req)
                           (controller.ReqName req)).

Definition StatusUpdate (policy : ShieldPolicy) : M (option controller.error) :=
  call (UpdateStatus policy) (updateStatus world).

(** The second half of [Reconcile]: the generation check and the requeue. *)
Definition checkGeneration (policy : ShieldPolicy)
  : M (controller.Result * option controller.error) :=
  if negb (Generation policy =? ObservedGeneration (Status policy)) then
    bind Now (fun now =>
    let policy' := observed now policy in
    bind (StatusUpdate policy') (fun err =>
    match err with
    | Some e => ret (controller.emptyResult, Some e)
    | None => ret (requeueLater, None)
    end))
  else ret (requeueLater, None).

(** [ShieldPolicyReconciler.Reconcile].  A successful status write answers
    with the object as stored, which carries the status just sent and the
    generation the write was based on, so the object at hand stays as
    assigned. *)
Definition Reconcile (req : controller.Request)
  : M (controller.Result * option controller.error) :=
  bind (Get req) (fun got =>
  match got with
  | inl err =>
      if controller.IsNotFound err then ret (controller.emptyResult, None)
      else ret (controller.emptyResult, Some err)
  | inr policy =>
      if (Phase (Status policy) =? "")%string then
        bind Now (fun now =>
        let policy' := initialised now policy in
        bind (StatusUpdate policy') (fun err =>
        match err with
        | Some e => ret (controller.emptyResult, Some e)
        | None => checkGeneration policy'
        end))
      else checkGeneration policy
  end).

End Reconciler.

End policy_controller.

(* ===================================================================== *)
(** ** Vocabulary of the further properties *)
(* ===================================================================== *)

Module Checks.

Import controller Props.

Definition hasType (t : string) (e : SecurityEvent) : bool :=
  (EventType e =? t)%string.

(** The containers [checkPodViolations] walks through, in its order. *)
Definition allContainers (pod : corev1.Pod) : list corev1.Container.t :=
  (corev1.Containers (corev1.Spec pod)
     ++ corev1.InitContainers (corev1.Spec pod))%list.

(** The image of [c] comes from a registry outside a non-empty allow
    list. *)
Definition disallowed (policy : v1alpha1.ShieldPolicy)
           (c : corev1.Container.t) : bool :=
  (0 <? List.length (v1alpha1.AllowedRegistries (v1alpha1.Spec policy)))%nat
  && negb (v1alpha1.IsRegistryAllowed
             policy (extractRegistry (corev1.Container.Image c))).

(** Nothing in [pod] violates [policy]. *)
Definition compliant (policy : v1alpha1.ShieldPolicy) (pod : corev1.Pod)
  : bool :=
  negb (corev1.HostNetwork (corev1.Spec pod))
  && forallb (fun c =>
                negb (v1alpha1.ShouldBlockPrivileged policy && isPrivileged c)
                && negb (disallowed policy c)
                && negb (runsAsRoot c))
             (allContainers pod).

(** [e] is stamped with [now] and names [pod], its node and [policy]. *)
Definition stamped (now : string) (pod : corev1.Pod)
           (policy : v1alpha1.ShieldPolicy) (e : SecurityEvent) : Prop :=
  Timestamp e = now
  /\ PodName e = corev1.Name pod
  /\ Namespace e = corev1.Namespace pod
  /\ NodeName e = corev1.NodeName (corev1.Spec pod)
  /\ PolicyName e = v1alpha1.Name policy.

(** [e] is one of the four kinds of event, with the severity of its kind,
    the action of its kind and the container it is about. *)
Definition classified (pod : corev1.Pod) (policy : v1alpha1.ShieldPolicy)
           (e : SecurityEvent) : Prop :=
  (EventType e = "HOST_NETWORK" /\ Severity e = "HIGH" /\ Action e = "AUDIT"
   /\ Container e = "" /\ Image e = "")
  \/ exists c,
       In c (allContainers pod)
       /\ Container e = corev1.Container.Name c
       /\ Image e = corev1.Container.Image c
       /\ ((EventType e = "PRIVILEGED_CONTAINER" /\ Severity e = "CRITICAL"
            /\ Action e = getActionString policy)
           \/ (EventType e = "DISALLOWED_REGISTRY" /\ Severity e = "HIGH"
               /\ Action e = getActionString policy)
           \/ (EventType e = "ROOT_USER" /\ Severity e = "HIGH"
               /\ Action e = "AUDIT")).

(** [p] is [p0] up to the status fields [updatePolicyStatus] assigns. *)
Definition samePolicy (p0 p : v1alpha1.ShieldPolicy) : Prop :=
  v1alpha1.Name p = v1alpha1.Name p0
  /\ v1alpha1.Namespace p = v1alpha1.Namespace p0
  /\ v1alpha1.Generation p = v1alpha1.Generation p0
  /\ v1alpha1.Spec p = v1alpha1.Spec p0
  /\ v1alpha1.Conditions (v1alpha1.Status p)
     = v1alpha1.Conditions (v1alpha1.Status p0)
  /\ v1alpha1.ObservedGeneration (v1alpha1.Status p)
     = v1alpha1.ObservedGeneration (v1alpha1.Status p0).

(** What a call of the loop over the violations of [policy0] may be, the
    events handled satisfying [about]. *)
Definition loopCall (r : PodReconciler) (pod : corev1.Pod)
           (policy0 : v1alpha1.ShieldPolicy) (about : SecurityEvent -> Prop)
           (c : Call) : Prop :=
  match c with
  | ReadClock => True
  | Post url event =>
      AuditServiceURL r <> ""
      /\ url = (AuditServiceURL r ++ "/log")%string
      /\ about event
  | DeletePod namespace name grace =>
      namespace = corev1.Namespace pod /\ name = corev1.Name pod /\ grace = 0
      /\ v1alpha1.IsEnforcing policy0 = true
  | UpdateStatus p =>
      v1alpha1.Phase (v1alpha1.Status p) = "Active" /\ samePolicy policy0 p
  | GetPod _ _ => False
  | ListPolicies => False
  end.

(** What a call of a pass over [pod] and the listed [items] may be. *)
Definition passCall (r : PodReconciler) (req : Request) (pod : corev1.Pod)
           (items : list v1alpha1.ShieldPolicy) (c : Call) : Prop :=
  match c with
  | ReadClock => True
  | ListPolicies => True
  | GetPod namespace name =>
      namespace = ReqNamespace req /\ name = ReqName req
  | Post url event =>
      AuditServiceURL r <> ""
      /\ url = (AuditServiceURL r ++ "/log")%string
      /\ PodName event = corev1.Name pod
      /\ Namespace event = corev1.Namespace pod
  | DeletePod namespace name grace =>
      namespace = corev1.Namespace pod /\ name = corev1.Name pod /\ grace = 0
      /\ exists p0, In p0 items
                    /\ v1alpha1.IsEnforcing p0 = true
                    /\ v1alpha1.ShouldApplyToNamespace
                         p0 (corev1.Namespace pod) = true
  | UpdateStatus p =>
      v1alpha1.Phase (v1alpha1.Status p) = "Active"
      /\ exists p0, In p0 items
                    /\ samePolicy p0 p
                    /\ v1alpha1.IsDisabled p0 = false
                    /\ v1alpha1.ShouldApplyToNamespace
                         p0 (corev1.Namespace pod) = true
  end.

(** What a call of [Reconcile] may be. *)
Definition reconcileCall (world : Cluster) (r : PodReconciler)
           (req : Request) (c : Call) : Prop :=
  match c with
  | ReadClock => True
  | ListPolicies => True
  | GetPod namespace name =>
      namespace = ReqNamespace req /\ name = ReqName req
  | other =>
      exists pod items,
        getPod world (ReqNamespace req) (ReqName req) = inr pod
        /\ listPolicies world = inr items
        /\ passCall r req pod items other
  end.

(** What [Reconcile] can return: never a requeue, and as an error only an
    answer of the API server. *)
Definition fromServer (world : Cluster) (req : Request)
           (out : Result * option error) : Prop :=
  fst out = emptyResult
  /\ match snd out with
     | None => True
     | Some e =>
         (IsNotFound e = false
          /\ getPod world (ReqNamespace req) (ReqName req) = inl e)
         \/ listPolicies world = inl e
         \/ (IsNotFound e = false
             /\ exists n, deletePod world n = Some e)
     end.

(** [world] with other answers to the deletes. *)
Definition withDeletePod (answers : nat -> option error) (world : Cluster)
  : Cluster :=
  {| getPod := getPod world;
     listPolicies := listPolicies world;
     deletePod := answers;
     updateStatus := updateStatus world;
     newRequest := newRequest world;
     clock := clock world;
     zone := zone world |}.

(** A delete answer with NotFound turned into success. *)
Definition forgiven (answer : option error) : option error :=
  match answer with
  | Some ErrNotFound => None
  | other => other
  end.

(** The violation counts the status writes of [t] carry, in order. *)
Definition writtenCounts (t : Trace) : list Z :=
  flat_map (fun c => match c with
                     | UpdateStatus p =>
                         [v1alpha1.ViolationsCount (v1alpha1.Status p)]
                     | _ => []
                     end) t.

(** The policies written by a pass of the policy reconciler. *)
Definition writtenPolicies (t : policy_controller.Trace)
  : list v1alpha1.ShieldPolicy :=
  flat_map (fun c => match c with
                     | policy_controller.UpdateStatus p => [p]
                     | _ => []
                     end) t.

(** [p] is what a pass of the policy reconciler may write for the fetched
    [policy]. *)
Definition steadyWrite (policy p : v1alpha1.ShieldPolicy) : Prop :=
  v1alpha1.Phase (v1alpha1.Status p) <> ""
  /\ v1alpha1.ObservedGeneration (v1alpha1.Status p) = v1alpha1.Generation p
  /\ v1alpha1.Name p = v1alpha1.Name policy
  /\ v1alpha1.Namespace p = v1alpha1.Namespace policy
  /\ v1alpha1.Generation p = v1alpha1.Generation policy
  /\ v1alpha1.Spec p = v1alpha1.Spec policy
  /\ v1alpha1.ViolationsCount (v1alpha1.Status p)
     = v1alpha1.ViolationsCount (v1alpha1.Status policy)
  /\ v1alpha1.TerminationsCount (v1alpha1.Status p)
     = v1alpha1.TerminationsCount (v1alpha1.Status policy)
  /\ v1alpha1.LastEnforcementTime (v1alpha1.Status p)
     = v1alpha1.LastEnforcementTime (v1alpha1.Status policy)
  /\ exists condition,
       v1alpha1.Conditions (v1alpha1.Status p) = [condition]
       /\ v1alpha1.Type_ condition = "Ready"
       /\ v1alpha1.ConditionStatus condition = "True".

(** What a status update records, field by field: the policy with one
    more violation counted, phase Active and [now] as last enforcement time,
    and, if the pod was terminated, one more termination counted and the
    message replaced. *)
Definition recorded (now : Time) (localZone : Z) (terminated : bool)
           (policy : v1alpha1.ShieldPolicy) : v1alpha1.ShieldPolicy :=
  let old := v1alpha1.Status policy in
  {| v1alpha1.Name := v1alpha1.Name policy;
     v1alpha1.Namespace := v1alpha1.Namespace policy;
     v1alpha1.Generation := v1alpha1.Generation policy;
     v1alpha1.Spec := v1alpha1.Spec policy;
     v1alpha1.Status :=
       {| v1alpha1.Phase := "Active";
          v1alpha1.LastEnforcementTime := Some now;
          v1alpha1.ViolationsCount :=
            int64.wrap (v1alpha1.ViolationsCount old + 1);
          v1alpha1.TerminationsCount :=
            if terminated
            then int64.wrap (v1alpha1.TerminationsCount old + 1)
            else v1alpha1.TerminationsCount old;
          v1alpha1.Conditions := v1alpha1.Conditions old;
          v1alpha1.ObservedGeneration := v1alpha1.ObservedGeneration old;
          v1alpha1.Message :=
            if terminated
            then ("Last termination at "
                    ++ time.FormatRFC3339 localZone now)%string
            else v1alpha1.Message old |} |}.

(** The calls a pass makes for [violations] under a policy that is not
    enforcing, [st] being the calls made before: for each violation in
    order its post, a clock reading, and the write of the policy with what
    all violations so far have recorded. *)
Fixpoint auditCalls (world : Cluster) (r : PodReconciler)
         (policy : v1alpha1.ShieldPolicy) (violations : list SecurityEvent)
         (st : Trace) : Trace :=
  match violations with
  | [] => []
  | violation :: rest =>
      let sent := posts world r violation in
      let policy' :=
        recorded (clock world (List.length (st ++ sent))) (zone world)
                 false policy in
      let calls := (sent ++ [ReadClock; UpdateStatus policy'])%list in
      (calls ++ auditCalls world r policy' rest (st ++ calls))%list
  end.

(** The calls a pass makes for the first [violation] under an enforcing
    policy, [st] being the calls made before: its post, the delete of the
    pod, and, unless the delete is refused with an error other than
    NotFound, a clock reading and the write of the policy with the
    termination recorded. *)
Definition terminationCalls (world : Cluster) (r : PodReconciler)
           (pod : corev1.Pod) (policy : v1alpha1.ShieldPolicy)
           (violation : SecurityEvent) (st : Trace) : Trace :=
  let sent := posts world r violation in
  let del := DeletePod (corev1.Namespace pod) (corev1.Name pod) 0 in
  let write :=
    [ReadClock;
     UpdateStatus (recorded (clock world (List.length (st ++ sent ++ [del])))
                            (zone world) true policy)] in
  (sent
     ++ del
     :: match deletePod world (List.length (st ++ sent)) with
        | Some e => if IsNotFound e then write else []
        | None => write
        end)%list.

(** What [Reconcile] returns after that delete. *)
Definition terminationResult (world : Cluster) (r : PodReconciler)
           (violation : SecurityEvent) (st : Trace) : Result * option error :=
  match deletePod world (List.length (st ++ posts world r violation)) with
  | Some e => if IsNotFound e then (emptyResult, None)
              else (emptyResult, Some e)
  | None => (emptyResult, None)
  end.

(** [policy] does not terminate [pod]: it does not apply to the pod's
    namespace, or is disabled, or is not enforcing, or the pod is compliant
    with it. *)
Definition passes (pod : corev1.Pod) (policy : v1alpha1.ShieldPolicy)
  : bool :=
  negb (v1alpha1.ShouldApplyToNamespace policy (corev1.Namespace pod)
        && negb (v1alpha1.IsDisabled policy)
        && v1alpha1.IsEnforcing policy
        && negb (compliant policy pod)).

End Checks.

(* ===================================================================== *)
(** ** Registry extraction *)
(* ===================================================================== *)

Import controller Props.

Section RegistryExtraction.

Lemma Contains_byte (c : ascii) (s : string) :
  strings.Contains s (String c EmptyString) = hasByte c s.
Proof.
  induction s as [|d s IH]; cbn [strings.Contains hasByte prefix].
  - reflexivity.
  - rewrite IH. destruct (ascii_dec c d) as [->|ne].
    + rewrite Ascii.eqb_refl. destruct s; reflexivity.
    + destruct (Ascii.eqb_spec d c) as [->|_]; [contradiction|reflexivity].
Qed.

Lemma splitFrom_slash_head (s : string) (cur : list ascii) :
  hd EmptyString (strings.splitFrom "/" 0 cur s)
  = string_of_list_ascii
      (rev cur ++ list_ascii_of_string (beforeFirst "/" s))%list.
Proof.
  revert cur.
  induction s as [|d s IH]; intros cur; cbn [strings.splitFrom beforeFirst].
  - cbn. now rewrite app_nil_r.
  - cbn [prefix]. destruct (ascii_dec "/" d) as [<-|ne].
    + rewrite Ascii.eqb_refl.
      replace (prefix EmptyString s) with true by (destruct s; reflexivity).
      cbn. now rewrite app_nil_r.
    + destruct (Ascii.eqb_spec d "/") as [->|_]; [contradiction|].
      rewrite IH. cbn [rev list_ascii_of_string].
      now rewrite <- app_assoc.
Qed.

(** [strings.Split] never returns an empty slice, so [parts[0]] in
    [extractRegistry] is always in range. *)
Lemma splitFrom_not_nil (sep s : string) (skip : nat) (cur : list ascii) :
  strings.splitFrom sep skip cur s <> [].
Proof.
  revert skip cur.
  induction s as [|d s IH]; intros skip cur; cbn [strings.splitFrom].
  - discriminate.
  - destruct skip; [destruct (prefix sep (String d s))|];
      try discriminate; apply IH.
Qed.

Lemma Split_slash_first (s : string) :
  exists rest, strings.Split s "/" = beforeFirst "/" s :: rest.
Proof.
  pose proof (splitFrom_slash_head s []) as H.
  unfold strings.Split.
  destruct (strings.splitFrom "/" 0 [] s) as [|h t] eqn:E.
  - now apply splitFrom_not_nil in E.
  - exists t. cbn in H. rewrite string_of_list_ascii_of_string in H.
    now subst.
Qed.

End RegistryExtraction.

(** C9. Registry extraction follows the specification's wording for every
    image reference: without a ['/'] the registry is [docker.io]; otherwise
    the substring before the first ['/'] is the registry if it contains ['.']
    or [':'], and [docker.io] if not.  In particular ["nginx"] and
    ["library/nginx"] give [docker.io], ["myregistry.io/nginx"] gives
    ["myregistry.io"] and ["localhost:5000/app"] gives ["localhost:5000"]. *)
Theorem extractRegistry_refines_spec :
  (forall image, extractRegistry image = spec_registry image)
  /\ extractRegistry "nginx" = "docker.io"
  /\ extractRegistry "myregistry.io/nginx" = "myregistry.io"
  /\ extractRegistry "library/nginx" = "docker.io"
  /\ extractRegistry "localhost:5000/app" = "localhost:5000".
Proof.
  split; [|repeat split; reflexivity].
  intros image. unfold extractRegistry, spec_registry.
  rewrite Contains_byte.
  destruct (hasByte "/" image); cbn [negb]; [|reflexivity].
  destruct (Split_slash_first image) as [rest ->].
  now rewrite !Contains_byte.
Qed.

(* ===================================================================== *)
(** ** The reserved namespace *)
(* ===================================================================== *)

(** C7. A request for a pod in [kube-system] makes [Reconcile] return the
    empty result and no error at once, without a single call (no fetch, no
    list, no detection), whatever the cluster holds; and
    [ShouldApplyToNamespace] is false at ["kube-system"] for every policy,
    whatever its target namespaces. *)
Theorem kube_system_is_never_evaluated :
  (forall world r name st,
      Reconcile world r {| ReqNamespace := "kube-system"; ReqName := name |} st
      = ((emptyResult, None), st))
  /\ (forall policy,
         v1alpha1.ShouldApplyToNamespace policy "kube-system" = false).
Proof.
  split; reflexivity.
Qed.

(* ===================================================================== *)
(** ** What each operation of the reconciler calls *)
(* ===================================================================== *)

Section Runs.

Variable world : Cluster.
Variable r : PodReconciler.

Lemma sendSecurityEvent_run (event : SecurityEvent) (st : Trace) :
  sendSecurityEvent world r event st = (tt, (st ++ posts world r event)%list).
Proof.
  unfold sendSecurityEvent, posts.
  destruct (AuditServiceURL r =? "")%string.
  - cbn. now rewrite app_nil_r.
  - destruct (newRequest world _); cbn; [reflexivity|now rewrite app_nil_r].
Qed.

Lemma checkPodViolations_run (pod : corev1.Pod)
      (policy : v1alpha1.ShieldPolicy) (st : Trace) :
  checkPodViolations world pod policy st
  = (checkPodViolationsAt
       (time.FormatRFC3339 0 (clock world (List.length st))) pod policy,
     (st ++ [ReadClock])%list).
Proof. reflexivity. Qed.

Lemma updatePolicyStatus_run (policy : v1alpha1.ShieldPolicy)
      (wasTerminated : bool) (st : Trace) :
  updatePolicyStatus world policy wasTerminated st
  = (statusAfter (clock world (List.length st)) (zone world)
                 policy wasTerminated,
     (st ++ [ReadClock;
             UpdateStatus (statusAfter (clock world (List.length st))
                                       (zone world) policy wasTerminated)])%list).
Proof.
  unfold updatePolicyStatus, bind, Now, StatusUpdate, call, ret.
  now rewrite <- app_assoc.
Qed.

Lemma statusAfter_IsEnforcing now z (policy : v1alpha1.ShieldPolicy) b :
  v1alpha1.IsEnforcing (statusAfter now z policy b)
  = v1alpha1.IsEnforcing policy.
Proof. reflexivity. Qed.

(** One violation under a policy that is not enforcing: the event is
    sent, the status written, and the loop goes on with the mutated
    policy. *)
Lemma violationLoop_audit_step (pod : corev1.Pod)
      (policy : v1alpha1.ShieldPolicy) violation rest (st : Trace) :
  v1alpha1.IsEnforcing policy = false ->
  violationLoop world r pod policy (violation :: rest) st
  = let st1 := (st ++ posts world r violation)%list in
    let policy' := statusAfter (clock world (List.length st1)) (zone world)
                               policy false in
    violationLoop world r pod policy' rest
                  (st1 ++ [ReadClock; UpdateStatus policy'])%list.
Proof.
  intros Hmode. cbn [violationLoop]. unfold bind at 1.
  rewrite sendSecurityEvent_run, Hmode. unfold bind at 1.
  now rewrite updatePolicyStatus_run.
Qed.

(** The first violation under an enforcing policy: the event is sent, the
    pod deleted, and [Reconcile] returns, after a status write unless the
    delete failed with an error other than NotFound. *)
Lemma violationLoop_enforce_step (pod : corev1.Pod)
      (policy : v1alpha1.ShieldPolicy) violation rest (st : Trace) :
  v1alpha1.IsEnforcing policy = true ->
  violationLoop world r pod policy (violation :: rest) st
  = let st1 := (st ++ posts world r violation)%list in
    let st2 := (st1 ++ [DeletePod (corev1.Namespace pod) (corev1.Name pod) 0])%list in
    let policy' := statusAfter (clock world (List.length st2)) (zone world)
                               policy true in
    let written := (st2 ++ [ReadClock; UpdateStatus policy'])%list in
    match deletePod world (List.length st1) with
    | Some e => if negb (IsNotFound e) then (Some (emptyResult, Some e), st2)
                else (Some (emptyResult, None), written)
    | None => (Some (emptyResult, None), written)
    end.
Proof.
  intros Hmode. cbn [violationLoop]. unfold bind at 1.
  rewrite sendSecurityEvent_run, Hmode. unfold bind at 1.
  unfold Delete, call at 1.
  destruct (deletePod world _) as [e|]; cbn zeta.
  - destruct (negb (IsNotFound e)); [reflexivity|].
    unfold bind. now rewrite updatePolicyStatus_run.
  - unfold bind. now rewrite updatePolicyStatus_run.
Qed.

End Runs.

(* ===================================================================== *)
(** ** Counting calls *)
(* ===================================================================== *)

Lemma count_app (f : Call -> bool) (t u : Trace) :
  count f (t ++ u)%list = (count f t + count f u)%nat.
Proof. unfold count. now rewrite filter_app, length_app. Qed.

Lemma count_posts (world : Cluster) (r : PodReconciler) event :
  count isDelete (posts world r event) = 0%nat
  /\ count isUpdate (posts world r event) = 0%nat.
Proof.
  unfold posts. destruct (AuditServiceURL r =? "")%string; [now split|].
  destruct (newRequest world _); now split.
Qed.

Lemma filter_isPost_posts (world : Cluster) (r : PodReconciler) event :
  filter isPost (posts world r event) = posts world r event.
Proof.
  unfold posts. destruct (AuditServiceURL r =? "")%string; [reflexivity|].
  destruct (newRequest world _); reflexivity.
Qed.

(** Under a policy that is not enforcing the loop over the violations runs
    to its end: every violation is sent and followed by one status write,
    and no delete is requested. *)
Lemma violationLoop_audit (world : Cluster) (r : PodReconciler)
      (pod : corev1.Pod) violations :
  forall (policy : v1alpha1.ShieldPolicy) (st : Trace),
    v1alpha1.IsEnforcing policy = false ->
    exists delta,
      violationLoop world r pod policy violations st = (None, (st ++ delta)%list)
      /\ count isDelete delta = 0%nat
      /\ count isUpdate delta = List.length violations
      /\ filter isPost delta = flat_map (posts world r) violations.
Proof.
  induction violations as [|v vs IH]; intros policy st Hmode.
  - exists []. cbn. now rewrite app_nil_r.
  - rewrite violationLoop_audit_step by assumption. cbn zeta.
    edestruct IH as (delta & Hrun & Hdel & Hupd & Hpost);
      [erewrite statusAfter_IsEnforcing; exact Hmode|].
    rewrite Hrun.
    eexists (posts world r v ++ [ReadClock; UpdateStatus _] ++ delta)%list.
    destruct (count_posts world r v) as [Pd Pu].
    repeat split.
    + now rewrite <- !app_assoc.
    + rewrite !count_app, Pd, Hdel. reflexivity.
    + rewrite !count_app, Pu, Hupd. reflexivity.
    + rewrite !filter_app, filter_isPost_posts, Hpost. reflexivity.
Qed.

(** Under an enforcing policy the loop stops at the first violation. *)
Lemma violationLoop_enforce (world : Cluster) (r : PodReconciler)
      (pod : corev1.Pod) (policy : v1alpha1.ShieldPolicy) violations st :
  v1alpha1.IsEnforcing policy = true ->
  exists delta,
    snd (violationLoop world r pod policy violations st) = (st ++ delta)%list
    /\ stopsAfterDelete delta
    /\ (fst (violationLoop world r pod policy violations st) = None ->
        delta = [])
    /\ count isUpdate delta
       = match fst (violationLoop world r pod policy violations st) with
         | Some (_, None) => 1%nat
         | _ => 0%nat
         end.
Proof.
  intros Hmode. destruct violations as [|v vs].
  - exists []. cbn. rewrite app_nil_r. repeat split. now constructor.
  - rewrite violationLoop_enforce_step by assumption. cbn zeta.
    destruct (count_posts world r v) as [Pd Pu].
    set (del := DeletePod (corev1.Namespace pod) (corev1.Name pod) 0).
    set (written := UpdateStatus _).
    assert (Hlast : stopsAfterDelete (posts world r v ++ [del])%list)
      by now apply delete_last.
    assert (Hwrite : stopsAfterDelete
                       (posts world r v ++ [del; ReadClock; written])%list)
      by now apply delete_then_write.
    assert (Hone : count isUpdate
                     (posts world r v ++ [del; ReadClock; written])%list
                   = 1%nat)
      by (rewrite count_app, Pu; reflexivity).
    assert (Hzero : count isUpdate (posts world r v ++ [del])%list = 0%nat)
      by (rewrite count_app, Pu; reflexivity).
    destruct (deletePod world _) as [e|]; [destruct (negb (IsNotFound e))|].
    + exists (posts world r v ++ [del])%list. cbn [fst snd].
      rewrite <- app_assoc. repeat split; try assumption. discriminate.
    + exists (posts world r v ++ [del; ReadClock; written])%list. cbn [fst snd].
      rewrite <- !app_assoc. repeat split; try assumption. discriminate.
    + exists (posts world r v ++ [del; ReadClock; written])%list. cbn [fst snd].
      rewrite <- !app_assoc. repeat split; try assumption. discriminate.
Qed.

Lemma stopsAfterDelete_prepend (pre t : Trace) :
  count isDelete pre = 0%nat ->
  stopsAfterDelete t -> stopsAfterDelete (pre ++ t)%list.
Proof.
  intros Hpre Ht. destruct Ht as [t H|p ns n g H|p ns n g q H].
  - apply no_delete. now rewrite count_app, Hpre, H.
  - rewrite app_assoc. apply delete_last. now rewrite count_app, Hpre, H.
  - rewrite app_assoc. apply delete_then_write.
    now rewrite count_app, Hpre, H.
Qed.

Lemma stopsAfterDelete_at_most_one (t : Trace) :
  stopsAfterDelete t -> (count isDelete t <= 1)%nat.
Proof.
  intros [u H|p ns n g H|p ns n g q H]; rewrite ?count_app, H; cbn; lia.
Qed.

(** The loop over the policies: the calls it adds have the termination
    shape. *)
Lemma policyLoop_stops (world : Cluster) (r : PodReconciler)
      (pod : corev1.Pod) items :
  forall st, exists delta,
    snd (policyLoop world r pod items st) = (st ++ delta)%list
    /\ stopsAfterDelete delta.
Proof.
  induction items as [|policy rest IH]; intros st.
  - exists []. cbn. rewrite app_nil_r. split; [reflexivity|now constructor].
  - cbn [policyLoop].
    destruct (negb (v1alpha1.ShouldApplyToNamespace policy _)); [apply IH|].
    destruct (v1alpha1.IsDisabled policy); [apply IH|].
    unfold bind at 1. rewrite checkPodViolations_run.
    set (vs := checkPodViolationsAt _ pod policy).
    unfold bind at 1.
    destruct (v1alpha1.IsEnforcing policy) eqn:Hmode.
    + destruct (violationLoop_enforce world r pod policy vs
                                      (st ++ [ReadClock])%list Hmode)
        as (delta & Hrun & Hshape & Hnone & _).
      destruct (violationLoop world r pod policy vs _) as [out st'] eqn:E.
      cbn [fst snd] in *. subst st'. destruct out as [res|].
      * exists ([ReadClock] ++ delta)%list. cbn [ret snd].
        rewrite <- app_assoc. split; [reflexivity|].
        apply stopsAfterDelete_prepend; [reflexivity|assumption].
      * rewrite (Hnone eq_refl), app_nil_r.
        destruct (IH (st ++ [ReadClock])%list) as (d & Hd & Hs).
        exists ([ReadClock] ++ d)%list. rewrite Hd, <- app_assoc.
        split; [reflexivity|].
        apply stopsAfterDelete_prepend; [reflexivity|assumption].
    + destruct (violationLoop_audit world r pod vs policy
                                    (st ++ [ReadClock])%list Hmode)
        as (delta & Hrun & Hdel & _).
      rewrite Hrun.
      destruct (IH ((st ++ [ReadClock]) ++ delta)%list) as (d & Hd & Hs).
      exists (([ReadClock] ++ delta) ++ d)%list. rewrite Hd, <- !app_assoc.
      split; [reflexivity|].
      apply stopsAfterDelete_prepend; [reflexivity|].
      apply stopsAfterDelete_prepend; assumption.
Qed.

(* ===================================================================== *)
(** ** Termination requests *)
(* ===================================================================== *)

(** C6. In every pass of [Reconcile], from any cluster and for any request,
    at most one delete is requested, and after a delete nothing is evaluated
    any more: the delete is either the last call of the pass or is followed
    only by the status write (and its clock reading) of the policy that
    caused it; no further detection, event or delete follows. *)
Theorem at_most_one_termination_per_pass :
  forall world r req st,
  exists delta,
    snd (Reconcile world r req st) = (st ++ delta)%list
    /\ stopsAfterDelete delta
    /\ (count isDelete delta <= 1)%nat.
Proof.
  intros world r req st.
  assert (Hquiet : forall t, count isDelete t = 0%nat ->
                             stopsAfterDelete t /\ (count isDelete t <= 1)%nat)
    by (intros t Ht; split; [now constructor|lia]).
  unfold Reconcile.
  destruct (ReqNamespace req =? "kube-system")%string.
  { exists []. cbn. rewrite app_nil_r. split; [reflexivity|now apply Hquiet]. }
  unfold bind at 1, Get, call at 1.
  destruct (getPod world _ _) as [err|pod].
  { exists [GetPod (ReqNamespace req) (ReqName req)].
    destruct (IsNotFound err); (split; [reflexivity|now apply Hquiet]). }
  destruct (corev1.DeletionTimestamp pod).
  { eexists [_]. split; [reflexivity|now apply Hquiet]. }
  destruct (_ || _).
  { eexists [_]. split; [reflexivity|now apply Hquiet]. }
  unfold bind at 1, List_, call at 1.
  destruct (listPolicies world) as [err|policies].
  { eexists [_; _]. cbn [ret snd]. rewrite <- app_assoc.
    split; [reflexivity|now apply Hquiet]. }
  destruct (policyLoop_stops world r pod policies
              ((st ++ [GetPod (ReqNamespace req) (ReqName req)])
                 ++ [ListPolicies])%list) as (d & Hd & Hs).
  exists ([GetPod (ReqNamespace req) (ReqName req); ListPolicies] ++ d)%list.
  rewrite Hd, <- !app_assoc.
  assert (Hall : stopsAfterDelete
                   ([GetPod (ReqNamespace req) (ReqName req); ListPolicies]
                      ++ d)%list)
    by now apply stopsAfterDelete_prepend.
  split; [reflexivity|].
  split; [assumption|now apply stopsAfterDelete_at_most_one].
Qed.

(* ===================================================================== *)
(** ** Status writes *)
(* ===================================================================== *)

(** C2, as stated, fails: in a pass over a pod that uses the host network
    and has a container running as root, the one policy of the cluster, in
    Audit mode, has its status written twice, once for each violation. *)
Lemma audit_policy_is_written_per_violation :
  let world := Scenario.cluster (Scenario.pod true [Scenario.asRoot])
                                [Scenario.policy "Audit"] None in
  count isUpdate (snd (Reconcile world Scenario.reconciler Scenario.request []))
  = 2%nat.
Proof. vm_compute. reflexivity. Qed.

(** The number of status writes of the loop over the violations of one
    policy. *)
Lemma violationLoop_status_writes :
  forall world r pod policy violations st,
  exists delta,
    snd (violationLoop world r pod policy violations st) = (st ++ delta)%list
    /\ count isUpdate delta
       = if v1alpha1.IsEnforcing policy
         then match fst (violationLoop world r pod policy violations st) with
              | Some (_, None) => 1%nat
              | _ => 0%nat
              end
         else List.length violations.
Proof.
  intros world r pod policy violations st.
  destruct (v1alpha1.IsEnforcing policy) eqn:Hmode.
  - destruct (violationLoop_enforce world r pod policy violations st Hmode)
      as (delta & Hrun & _ & _ & Hupd).
    now exists delta.
  - destruct (violationLoop_audit world r pod violations policy st Hmode)
      as (delta & Hrun & _ & Hupd & _).
    exists delta. now rewrite Hrun.
Qed.

(** The loops of [Reconcile] read neither the pod nor the policy list from
    the cluster, and ignore the answers to their status writes. *)
Section LoopsIgnore.

Variables w1 w2 : Cluster.
Variable r : PodReconciler.
Hypothesis same_delete : deletePod w1 = deletePod w2.
Hypothesis same_request : newRequest w1 = newRequest w2.
Hypothesis same_clock : clock w1 = clock w2.
Hypothesis same_zone : zone w1 = zone w2.

Lemma posts_ext event : posts w1 r event = posts w2 r event.
Proof. unfold posts. now rewrite same_request. Qed.

Lemma violationLoop_ext (pod : corev1.Pod) violations :
  forall (policy : v1alpha1.ShieldPolicy) st,
    violationLoop w1 r pod policy violations st
    = violationLoop w2 r pod policy violations st.
Proof.
  induction violations as [|v vs IH]; intros policy st; [reflexivity|].
  destruct (v1alpha1.IsEnforcing policy) eqn:Hmode.
  - rewrite !violationLoop_enforce_step by assumption.
    now rewrite posts_ext, same_delete, same_clock, same_zone.
  - rewrite !violationLoop_audit_step by assumption. cbn zeta.
    rewrite posts_ext, same_clock, same_zone. apply IH.
Qed.

Lemma policyLoop_ext (pod : corev1.Pod) items :
  forall st, policyLoop w1 r pod items st = policyLoop w2 r pod items st.
Proof.
  induction items as [|policy rest IH]; intros st; [reflexivity|].
  cbn [policyLoop].
  destruct (negb (v1alpha1.ShouldApplyToNamespace policy _)); [apply IH|].
  destruct (v1alpha1.IsDisabled policy); [apply IH|].
  unfold bind. rewrite !checkPodViolations_run, same_clock.
  rewrite violationLoop_ext.
  destruct (violationLoop w2 r pod policy _ _) as [[res|] st'];
    [reflexivity|apply IH].
Qed.

End LoopsIgnore.

(** C3, as stated, fails: with an API server that answers every status
    write with a conflict, the pass makes its one status write, does not
    repeat it, and [Reconcile] returns without an error. *)
Lemma conflicting_status_write_is_not_retried :
  let world := Scenario.cluster (Scenario.pod true [Scenario.clean])
                                [Scenario.policy "Audit"] (Some ErrConflict) in
  let out := Reconcile world Scenario.reconciler Scenario.request [] in
  (forall n, updateStatus world n = Some ErrConflict)
  /\ count isUpdate (snd out) = 1%nat
  /\ fst out = (emptyResult, None).
Proof. repeat split. Qed.

(** C3, amended. A failed status write, a conflict included, is not retried
    and not reported: [updatePolicyStatus] reads the clock and makes exactly
    one write whatever the answer, and the result and the calls of
    [Reconcile] are the same whatever the API server answers to the status
    writes. *)
Theorem failed_status_write_is_dropped :
  (forall world policy wasTerminated st,
      exists policy',
        updatePolicyStatus world policy wasTerminated st
        = (policy', (st ++ [ReadClock; UpdateStatus policy'])%list))
  /\ (forall answers world r req st,
         Reconcile (withUpdateStatus answers world) r req st
         = Reconcile world r req st).
Proof.
  split.
  - intros. eexists. apply updatePolicyStatus_run.
  - intros answers world r req st. unfold Reconcile.
    destruct (ReqNamespace req =? "kube-system")%string; [reflexivity|].
    unfold bind, Get, List_, call. cbn [getPod listPolicies withUpdateStatus].
    destruct (getPod world _ _) as [err|pod]; [reflexivity|].
    destruct (corev1.DeletionTimestamp pod); [reflexivity|].
    destruct (_ || _); [reflexivity|].
    destruct (listPolicies world) as [err|policies]; [reflexivity|].
    now apply policyLoop_ext.
Qed.

(** C4, as stated, fails: a status update with [wasTerminated = false]
    changes [lastEnforcementTime]; on a policy never enforced before it sets
    the field to the clock reading. *)
Lemma audit_update_sets_lastEnforcementTime :
  let world := Scenario.cluster (Scenario.pod true [Scenario.clean])
                                [Scenario.policy "Audit"] None in
  let policy := Scenario.policy "Audit" in
  let policy' := fst (updatePolicyStatus world policy false []) in
  v1alpha1.LastEnforcementTime (v1alpha1.Status policy) = None
  /\ v1alpha1.LastEnforcementTime (v1alpha1.Status policy')
     = Some 1700000000000000000.
Proof. split; reflexivity. Qed.

(** C4, amended. A status update, whatever [wasTerminated], increments
    [violationsCount] by exactly 1 (the counter not being at the top of
    int64), sets [phase] to Active and sets [lastEnforcementTime] to the
    clock reading; it leaves the conditions, the observed generation and the
    rest of the policy unchanged.  With [wasTerminated = false] it leaves
    [terminationsCount] and [message] unchanged; [terminationsCount] is
    incremented and [message] replaced only with [wasTerminated = true]. *)
Theorem updatePolicyStatus_effect :
  forall world policy wasTerminated st,
    int64.min <= v1alpha1.ViolationsCount (v1alpha1.Status policy) < int64.max ->
    let now := clock world (List.length st) in
    let policy' := fst (updatePolicyStatus world policy wasTerminated st) in
    let old := v1alpha1.Status policy in
    let new := v1alpha1.Status policy' in
    v1alpha1.ViolationsCount new = v1alpha1.ViolationsCount old + 1
    /\ v1alpha1.Phase new = "Active"
    /\ v1alpha1.LastEnforcementTime new = Some now
    /\ v1alpha1.TerminationsCount new
       = (if wasTerminated
          then int64.wrap (v1alpha1.TerminationsCount old + 1)
          else v1alpha1.TerminationsCount old)
    /\ v1alpha1.Message new
       = (if wasTerminated
          then "Last termination at " ++ time.FormatRFC3339 (zone world) now
          else v1alpha1.Message old)
    /\ v1alpha1.Conditions new = v1alpha1.Conditions old
    /\ v1alpha1.ObservedGeneration new = v1alpha1.ObservedGeneration old
    /\ v1alpha1.Spec policy' = v1alpha1.Spec policy
    /\ v1alpha1.Name policy' = v1alpha1.Name policy
    /\ v1alpha1.Namespace policy' = v1alpha1.Namespace policy
    /\ v1alpha1.Generation policy' = v1alpha1.Generation policy.
Proof.
  intros world policy wasTerminated st Hrange.
  rewrite updatePolicyStatus_run. cbn [fst].
  assert (Hwrap : int64.wrap
                    (v1alpha1.ViolationsCount (v1alpha1.Status policy) + 1)
                  = v1alpha1.ViolationsCount (v1alpha1.Status policy) + 1).
  { unfold int64.wrap, int64.min, int64.max in *.
    rewrite Z.mod_small by lia. lia. }
  destruct wasTerminated; cbn; rewrite Hwrap; repeat split.
Qed.

Lemma updatePolicyStatus_effect_witness :
  let world := Scenario.cluster (Scenario.pod true [Scenario.clean])
                                [Scenario.policy "Audit"] None in
  let policy' :=
    fst (updatePolicyStatus world (Scenario.policy "Audit") false []) in
  (int64.min <= 0 < int64.max)
  /\ v1alpha1.ViolationsCount (v1alpha1.Status policy') = 0 + 1
  /\ v1alpha1.TerminationsCount (v1alpha1.Status policy') = 0
  /\ v1alpha1.Message (v1alpha1.Status policy') = "".
Proof.
  assert (Hrange : int64.min <= 0 < int64.max) by (vm_compute; split; congruence).
  split; [exact Hrange|].
  pose proof (updatePolicyStatus_effect
                (Scenario.cluster (Scenario.pod true [Scenario.clean])
                                  [Scenario.policy "Audit"] None)
                (Scenario.policy "Audit") false [] Hrange) as H.
  cbv zeta in H.
  destruct H as (Hv & _ & _ & Ht & Hm & _).
  split; [exact Hv|]. split; [exact Ht|exact Hm].
Defined.

(* ===================================================================== *)
(** ** Violation detection *)
(* ===================================================================== *)

Lemma containerViolations_retimed now1 now2 pod policy container :
  map (withTimestamp now2) (containerViolations now1 pod policy container)
  = containerViolations now2 pod policy container.
Proof.
  unfold containerViolations. rewrite !map_app.
  repeat f_equal.
  - destruct (v1alpha1.ShouldBlockPrivileged policy); [|reflexivity].
    destruct (corev1.Container.SecurityContext container) as [sc|];
      [|reflexivity].
    destruct (corev1.Privileged sc) as [[|]|]; reflexivity.
  - destruct (0 <? _)%nat; [|reflexivity].
    destruct (negb _); reflexivity.
  - destruct (corev1.Container.SecurityContext container) as [sc|];
      [|reflexivity].
    destruct (corev1.RunAsUser sc) as [uid|]; [|reflexivity].
    destruct (uid =? 0); reflexivity.
Qed.

(** Detection depends on the clock only through the timestamps. *)
Lemma checkPodViolationsAt_retimed now1 now2 pod policy :
  map (withTimestamp now2) (checkPodViolationsAt now1 pod policy)
  = checkPodViolationsAt now2 pod policy.
Proof.
  unfold checkPodViolationsAt. rewrite map_app. f_equal.
  - destruct (corev1.HostNetwork _); reflexivity.
  - induction (corev1.Containers (corev1.Spec pod)
                 ++ corev1.InitContainers (corev1.Spec pod))%list
      as [|c cs IH]; [reflexivity|].
    cbn [flat_map]. now rewrite map_app, containerViolations_retimed, IH.
Qed.

(** C5, as stated, fails: two detections on the same pod and policy, the
    second one a clock reading (one second) later, differ in their
    timestamps. *)
Lemma detection_twice_differs_in_timestamps :
  let world := Scenario.cluster (Scenario.pod true [Scenario.clean])
                                [Scenario.policy "Audit"] None in
  let pod := Scenario.pod true [Scenario.clean] in
  let first := checkPodViolations world pod (Scenario.policy "Audit") [] in
  let second :=
    checkPodViolations world pod (Scenario.policy "Audit") (snd first) in
  map Timestamp (fst first) = ["2023-11-14T22:13:20Z"]
  /\ map Timestamp (fst second) = ["2023-11-14T22:13:21Z"]
  /\ fst first <> fst second.
Proof.
  repeat split. vm_compute. discriminate.
Qed.

(** C5, amended. Running detection twice on the same pod and policy gives
    the same violations in the same order, equal in every field except the
    timestamp: the second sequence is the first one with every timestamp
    replaced by the second run's own clock reading. *)
Theorem detection_twice_same_up_to_timestamp :
  forall world pod policy st,
    let first := checkPodViolations world pod policy st in
    let second := checkPodViolations world pod policy (snd first) in
    fst second
    = map (withTimestamp
             (time.FormatRFC3339 0 (clock world (List.length (snd first)))))
          (fst first).
Proof.
  intros world pod policy st. cbv zeta.
  rewrite !checkPodViolations_run. cbn [fst snd].
  now rewrite checkPodViolationsAt_retimed.
Qed.

(** The one event of a pod whose only issue is the host network. *)
Lemma host_network_only_detection now pod policy :
  onlyHostNetwork policy pod = true ->
  exists event,
    checkPodViolationsAt now pod policy = [event]
    /\ EventType event = "HOST_NETWORK"
    /\ Severity event = "HIGH"
    /\ Action event = "AUDIT".
Proof.
  unfold onlyHostNetwork, checkPodViolationsAt.
  intros [Hhost Hclean]%andb_prop. rewrite Hhost.
  eexists. split.
  { cbn [app]. f_equal.
    induction (corev1.Containers (corev1.Spec pod)
                 ++ corev1.InitContainers (corev1.Spec pod))%list
      as [|c cs IH]; [reflexivity|].
    cbn [forallb] in Hclean.
    apply andb_prop in Hclean as [Hc Hcs].
    apply andb_prop in Hc as [Hc Hroot]. apply andb_prop in Hc as [Hpriv Hreg].
    cbn [flat_map]. rewrite (IH Hcs), app_nil_r.
    unfold containerViolations, isPrivileged, runsAsRoot in *.
    rewrite Hreg. cbn [negb].
    destruct (corev1.Container.SecurityContext c) as [sc|].
    - destruct (corev1.Privileged sc) as [[|]|]; try discriminate;
        destruct (corev1.RunAsUser sc) as [uid|];
        try (destruct (uid =? 0); try discriminate);
        destruct (v1alpha1.ShouldBlockPrivileged policy);
        destruct (0 <? _)%nat; reflexivity.
    - destruct (v1alpha1.ShouldBlockPrivileged policy);
        destruct (0 <? _)%nat; reflexivity. }
  repeat split.
Qed.

(** Under an enforcing policy the loop deletes the pod at the first
    violation, whatever action the violation record names. *)
Lemma violationLoop_enforce_deletes world r pod policy violation rest st :
  v1alpha1.IsEnforcing policy = true ->
  In (DeletePod (corev1.Namespace pod) (corev1.Name pod) 0)
     (snd (violationLoop world r pod policy (violation :: rest) st)).
Proof.
  intros Hmode. rewrite violationLoop_enforce_step by assumption. cbn zeta.
  destruct (deletePod world _) as [e|]; [destruct (negb (IsNotFound e))|];
    cbn [snd]; rewrite ?in_app_iff; cbn; tauto.
Qed.

(** Whatever the cluster, a pod whose only issue is the host network is
    deleted by the first enforcing policy that applies to it. *)
Lemma host_network_only_is_deleted world r pod policy rest st :
  v1alpha1.ShouldApplyToNamespace policy (corev1.Namespace pod) = true ->
  v1alpha1.IsEnforcing policy = true ->
  onlyHostNetwork policy pod = true ->
  In (DeletePod (corev1.Namespace pod) (corev1.Name pod) 0)
     (snd (policyLoop world r pod (policy :: rest) st)).
Proof.
  intros Happly Hmode Honly. cbn [policyLoop]. rewrite Happly. cbn [negb].
  assert (Hon : v1alpha1.IsDisabled policy = false).
  { unfold v1alpha1.IsEnforcing, v1alpha1.IsDisabled in *.
    apply orb_prop in Hmode as [H|H]; apply String.eqb_eq in H;
      now rewrite H. }
  rewrite Hon. unfold bind at 1. rewrite checkPodViolations_run.
  destruct (host_network_only_detection
              (time.FormatRFC3339 0 (clock world (List.length st)))
              pod policy Honly) as (event & -> & _).
  unfold bind. rewrite violationLoop_enforce_step by assumption. cbn zeta.
  destruct (deletePod world _) as [e|]; [destruct (negb (IsNotFound e))|];
    cbn [ret snd]; rewrite ?in_app_iff; cbn; tauto.
Qed.

(** C1. The detection half of the claim holds and the enforcement half does
    not: for the pod [default/web], which uses the host network and has no
    other issue, a pass under the Enforce policy detects exactly one
    violation, HOST_NETWORK with severity HIGH and action AUDIT, and then
    requests the deletion of the pod and records a termination. *)
Theorem host_network_under_enforce_is_terminated :
  let pod := Scenario.pod true [Scenario.clean] in
  let policy := Scenario.policy "Enforce" in
  let world := Scenario.cluster pod [policy] None in
  let calls := snd (Reconcile world Scenario.reconciler Scenario.request []) in
  onlyHostNetwork policy pod = true
  /\ map (fun e => (EventType e, Severity e, Action e))
         (fst (checkPodViolations world pod policy []))
     = [("HOST_NETWORK", "HIGH", "AUDIT")]
  /\ filter isDelete calls = [DeletePod "default" "web" 0]
  /\ map (fun c => match c with
                   | UpdateStatus p =>
                       v1alpha1.TerminationsCount (v1alpha1.Status p)
                   | _ => 0
                   end)
         (filter isUpdate calls) = [1].
Proof. repeat split. Qed.

(* ===================================================================== *)
(** ** Enforcement modes *)
(* ===================================================================== *)

Lemma policyLoop_skips_disabled world r pod policy before after :
  v1alpha1.IsDisabled policy = true ->
  forall st,
    policyLoop world r pod (before ++ policy :: after)%list st
    = policyLoop world r pod (before ++ after)%list st.
Proof.
  intros Hoff. induction before as [|p ps IH]; intros st.
  - cbn [app policyLoop]. rewrite Hoff. now destruct (negb _).
  - cbn [app policyLoop].
    destruct (negb (v1alpha1.ShouldApplyToNamespace p _)); [apply IH|].
    destruct (v1alpha1.IsDisabled p); [apply IH|].
    unfold bind.
    destruct (checkPodViolations world pod p st) as [vs st1].
    destruct (violationLoop world r pod p vs st1) as [[res|] st2];
      [reflexivity|apply IH].
Qed.

(** C8. A policy whose enforcement mode is Disabled is skipped entirely:
    the loop over the policies, and with it the whole pass of [Reconcile],
    returns the same result and makes the same calls as if the policy were
    not in the list, so that under it nothing is detected, sent, written or
    deleted, for any pod and any cluster. *)
Theorem disabled_policy_is_skipped :
  forall policy,
    v1alpha1.EnforcementMode (v1alpha1.Spec policy) = "Disabled" ->
    (forall world r pod before after st,
        policyLoop world r pod (before ++ policy :: after)%list st
        = policyLoop world r pod (before ++ after)%list st)
    /\ (forall world r req before after st,
           Reconcile (withPolicies (before ++ policy :: after)%list world)
                     r req st
           = Reconcile (withPolicies (before ++ after)%list world) r req st).
Proof.
  intros policy Hmode.
  assert (Hoff : v1alpha1.IsDisabled policy = true)
    by (unfold v1alpha1.IsDisabled; now rewrite Hmode).
  split.
  - intros. now apply policyLoop_skips_disabled.
  - intros world r req before after st. unfold Reconcile.
    destruct (ReqNamespace req =? "kube-system")%string; [reflexivity|].
    unfold bind, Get, List_, call. cbn [getPod listPolicies withPolicies].
    destruct (getPod world _ _) as [err|pod]; [reflexivity|].
    destruct (corev1.DeletionTimestamp pod); [reflexivity|].
    destruct (_ || _); [reflexivity|].
    rewrite (policyLoop_ext (withPolicies (before ++ policy :: after) world)
                            world) by reflexivity.
    rewrite (policyLoop_ext (withPolicies (before ++ after) world)
                            world) by reflexivity.
    now apply policyLoop_skips_disabled.
Qed.

Lemma disabled_policy_is_skipped_witness :
  let pod := Scenario.pod true [Scenario.asRoot] in
  let world := Scenario.cluster pod [] None in
  v1alpha1.EnforcementMode (v1alpha1.Spec (Scenario.policy "Disabled"))
  = "Disabled"
  /\ Reconcile (withPolicies ([] ++ Scenario.policy "Disabled" :: [])%list world)
               Scenario.reconciler Scenario.request []
     = Reconcile (withPolicies ([] ++ [])%list world)
                 Scenario.reconciler Scenario.request [].
Proof.
  split; [reflexivity|].
  apply (disabled_policy_is_skipped (Scenario.policy "Disabled") eq_refl).
Defined.

Section UnknownMode.

Variable policy : v1alpha1.ShieldPolicy.
Hypothesis not_enforcing : v1alpha1.IsEnforcing policy = false.
Hypothesis not_disabled : v1alpha1.IsDisabled policy = false.




End UnknownMode.



(* ===================================================================== *)
(** ** Further properties: the policy predicates *)
(* ===================================================================== *)

Import Checks.

(** X1. A registry is allowed by a policy exactly when the policy's allow
    list is empty, or contains the registry, or contains the wildcard
    ["*"]. *)
Theorem IsRegistryAllowed_iff :
  forall policy registry,
    v1alpha1.IsRegistryAllowed policy registry = true
    <-> (v1alpha1.AllowedRegistries (v1alpha1.Spec policy) = []
         \/ In registry (v1alpha1.AllowedRegistries (v1alpha1.Spec policy))
         \/ In "*" (v1alpha1.AllowedRegistries (v1alpha1.Spec policy))).
Proof.
  intros policy registry. unfold v1alpha1.IsRegistryAllowed.
  destruct (v1alpha1.AllowedRegistries (v1alpha1.Spec policy)) as [|a l] eqn:E.
  - cbn. tauto.
  - cbn [List.length Nat.eqb]. rewrite existsb_exists. split.
    + intros (x & Hin & Hx). right.
      apply orb_prop in Hx as [Hx|Hx]; apply String.eqb_eq in Hx; subst;
        [left|right]; exact Hin.
    + intros [H|[H|H]]; [discriminate| |].
      * exists registry. split; [exact H|]. now rewrite String.eqb_refl.
      * exists "*". split; [exact H|]. apply orb_true_r.
Qed.

(** X2. A policy applies to a namespace exactly when the namespace is not
    [kube-system] and the policy's target namespaces are empty or contain
    it; naming [kube-system] as a target has no effect. *)
Theorem ShouldApplyToNamespace_iff :
  forall policy namespace,
    v1alpha1.ShouldApplyToNamespace policy namespace = true
    <-> (namespace <> "kube-system"
         /\ (v1alpha1.TargetNamespaces (v1alpha1.Spec policy) = []
             \/ In namespace
                   (v1alpha1.TargetNamespaces (v1alpha1.Spec policy)))).
Proof.
  intros policy namespace. unfold v1alpha1.ShouldApplyToNamespace.
  destruct (String.eqb_spec namespace "kube-system") as [->|Hns].
  - split; [discriminate|]. intros [H _]. now contradiction H.
  - destruct (v1alpha1.TargetNamespaces (v1alpha1.Spec policy)) as [|a l].
    + cbn. tauto.
    + cbn [List.length Nat.eqb]. rewrite existsb_exists. split.
      * intros (x & Hin & Hx). apply String.eqb_eq in Hx. subst.
        split; [exact Hns|]. right. exact Hin.
      * intros [_ [H|H]]; [discriminate|].
        exists namespace. split; [exact H|apply String.eqb_refl].
Qed.

(** X3. The three mode predicates exclude each other: no policy is at once
    enforcing and auditing, enforcing and disabled, or auditing and
    disabled. *)
Theorem modes_exclude_each_other :
  forall policy,
    v1alpha1.IsEnforcing policy && v1alpha1.IsAuditing policy = false
    /\ v1alpha1.IsEnforcing policy && v1alpha1.IsDisabled policy = false
    /\ v1alpha1.IsAuditing policy && v1alpha1.IsDisabled policy = false.
Proof.
  intros policy.
  unfold v1alpha1.IsEnforcing, v1alpha1.IsAuditing, v1alpha1.IsDisabled.
  destruct (String.eqb_spec
              (v1alpha1.EnforcementMode (v1alpha1.Spec policy)) "")
    as [->|_]; [repeat split|].
  destruct (String.eqb_spec
              (v1alpha1.EnforcementMode (v1alpha1.Spec policy)) "Enforce")
    as [->|_]; [repeat split|].
  destruct (String.eqb_spec
              (v1alpha1.EnforcementMode (v1alpha1.Spec policy)) "Audit")
    as [->|_]; repeat split.
Qed.

(* ===================================================================== *)
(** ** Further properties: registry extraction *)
(* ===================================================================== *)

Lemma hasByte_beforeFirst (c : ascii) (s : string) :
  hasByte c (beforeFirst c s) = false.
Proof.
  induction s as [|d s IH]; [reflexivity|]. cbn [beforeFirst].
  destruct (Ascii.eqb d c) eqn:E; [reflexivity|]. cbn [hasByte].
  now rewrite E, IH.
Qed.

Lemma beforeFirst_split (c : ascii) (s : string) :
  hasByte c s = true ->
  exists rest, s = (beforeFirst c s ++ String c rest)%string.
Proof.
  induction s as [|d s IH]; [discriminate|]. cbn [hasByte beforeFirst].
  destruct (Ascii.eqb_spec d c) as [->|ne].
  - intros _. now exists s.
  - cbn [orb]. intros H. destruct (IH H) as [rest Hrest].
    exists rest. cbn [append]. now rewrite <- Hrest.
Qed.

Lemma extractRegistry_cases (image : string) :
  extractRegistry image = "docker.io"
  \/ (hasByte "/" image = true
      /\ (hasByte "." (beforeFirst "/" image)
          || hasByte ":" (beforeFirst "/" image)) = true
      /\ extractRegistry image = beforeFirst "/" image).
Proof.
  unfold extractRegistry. rewrite Contains_byte.
  destruct (hasByte "/" image); cbn [negb]; [|now left].
  destruct (Split_slash_first image) as [rest ->].
  rewrite !Contains_byte.
  destruct (hasByte "." _ || hasByte ":" _); [right|left]; repeat split.
Qed.

(** X4. The registry extracted from an image reference is never empty and
    never contains a ['/']: it is either [docker.io] or a host (a name with
    a ['.'] or a [':']) that the image reference starts with, followed by a
    ['/']. *)
Theorem extractRegistry_shape :
  forall image,
    hasByte "/" (extractRegistry image) = false
    /\ extractRegistry image <> ""
    /\ (extractRegistry image = "docker.io"
        \/ ((hasByte "." (extractRegistry image)
             || hasByte ":" (extractRegistry image)) = true
            /\ exists rest,
                 image = (extractRegistry image ++ String "/" rest)%string)).
Proof.
  intros image.
  destruct (extractRegistry_cases image) as [Heq|Heq].
  - rewrite Heq. split; [reflexivity|]. split; [discriminate|now left].
  - destruct Heq as (Hslash & Hhost & ->).
    split; [apply hasByte_beforeFirst|]. split.
    + intros Hnil. rewrite Hnil in Hhost. discriminate.
    + right. split; [exact Hhost|]. now apply beforeFirst_split.
Qed.

(* ===================================================================== *)
(** ** Further properties: violation detection *)
(* ===================================================================== *)

Ltac container_cases policy c :=
  unfold containerViolations, disallowed, isPrivileged, runsAsRoot,
    v1alpha1.ShouldBlockPrivileged;
  destruct (v1alpha1.BlockPrivileged (v1alpha1.Spec policy));
  destruct (v1alpha1.IsDisabled policy);
  destruct (0 <? List.length
                   (v1alpha1.AllowedRegistries (v1alpha1.Spec policy)))%nat;
  destruct (v1alpha1.IsRegistryAllowed
              policy (extractRegistry (corev1.Container.Image c)));
  destruct (corev1.Container.SecurityContext c) as [[[[|]|] [uid|]]|];
  cbn;
  try match goal with |- context [?u =? 0] => destruct (u =? 0) end;
  cbn.

Lemma containerViolations_counts now pod policy c :
  List.length (filter (hasType "PRIVILEGED_CONTAINER")
                      (containerViolations now pod policy c))
  = (if v1alpha1.ShouldBlockPrivileged policy && isPrivileged c
     then 1 else 0)%nat
  /\ List.length (filter (hasType "DISALLOWED_REGISTRY")
                         (containerViolations now pod policy c))
     = (if disallowed policy c then 1 else 0)%nat
  /\ List.length (filter (hasType "ROOT_USER")
                         (containerViolations now pod policy c))
     = (if runsAsRoot c then 1 else 0)%nat
  /\ filter (hasType "HOST_NETWORK") (containerViolations now pod policy c)
     = [].
Proof. container_cases policy c; repeat split. Qed.

Lemma count_flat_map {A B} (f : B -> bool) (g : A -> list B) (q : A -> bool)
      (l : list A) :
  (forall a, List.length (filter f (g a)) = if q a then 1 else 0)%nat ->
  List.length (filter f (flat_map g l)) = List.length (filter q l).
Proof.
  intros H. induction l as [|a l IH]; [reflexivity|].
  cbn [flat_map filter]. rewrite filter_app, length_app, H, IH.
  now destruct (q a).
Qed.

(** X5. Detection reports every finding exactly once: one HOST_NETWORK
    event if the pod uses the host network; one PRIVILEGED_CONTAINER event
    for each privileged container (init containers included) if the policy
    blocks them; one DISALLOWED_REGISTRY event for each container whose
    registry a non-empty allow list leaves out; one ROOT_USER event for each
    container running as user 0, whatever the policy says. *)
Theorem detection_counts :
  forall now pod policy,
    let events := checkPodViolationsAt now pod policy in
    List.length (filter (hasType "HOST_NETWORK") events)
    = (if corev1.HostNetwork (corev1.Spec pod) then 1 else 0)%nat
    /\ List.length (filter (hasType "PRIVILEGED_CONTAINER") events)
       = List.length
           (filter (fun c => v1alpha1.ShouldBlockPrivileged policy
                             && isPrivileged c)
                   (allContainers pod))
    /\ List.length (filter (hasType "DISALLOWED_REGISTRY") events)
       = List.length (filter (disallowed policy) (allContainers pod))
    /\ List.length (filter (hasType "ROOT_USER") events)
       = List.length (filter runsAsRoot (allContainers pod)).
Proof.
  intros now pod policy. cbv zeta. unfold checkPodViolationsAt.
  fold (allContainers pod). rewrite !filter_app, !length_app.
  assert (Hhost : filter (hasType "HOST_NETWORK")
                         (flat_map (containerViolations now pod policy)
                                   (allContainers pod)) = []).
  { induction (allContainers pod) as [|c cs IH]; [reflexivity|].
    cbn [flat_map]. rewrite filter_app, IH, app_nil_r.
    apply containerViolations_counts. }
  rewrite Hhost.
  rewrite (count_flat_map (hasType "PRIVILEGED_CONTAINER") _
             (fun c => v1alpha1.ShouldBlockPrivileged policy && isPrivileged c))
    by (intros c; apply containerViolations_counts).
  rewrite (count_flat_map (hasType "DISALLOWED_REGISTRY") _
                          (disallowed policy))
    by (intros c; apply containerViolations_counts).
  rewrite (count_flat_map (hasType "ROOT_USER") _ runsAsRoot)
    by (intros c; apply containerViolations_counts).
  destruct (corev1.HostNetwork (corev1.Spec pod)); repeat split.
Qed.

Lemma containerViolations_nil_iff now pod policy c :
  containerViolations now pod policy c = []
  <-> negb (v1alpha1.ShouldBlockPrivileged policy && isPrivileged c)
      && negb (disallowed policy c) && negb (runsAsRoot c) = true.
Proof.
  container_cases policy c; split; intros H;
    try discriminate H; try reflexivity; try contradiction.
Qed.

Lemma no_violation_iff_compliant_aux now pod policy :
  compliant policy pod = true -> checkPodViolationsAt now pod policy = [].
Proof.
  unfold checkPodViolationsAt, compliant. fold (allContainers pod).
  intros [Hhost Hall]%andb_prop. apply negb_true_iff in Hhost.
  rewrite Hhost. cbn [app].
  induction (allContainers pod) as [|c cs IH]; [reflexivity|].
  cbn [forallb] in Hall. apply andb_prop in Hall as [Hc Hcs].
  cbn [flat_map]. rewrite (IH Hcs), app_nil_r.
  now apply containerViolations_nil_iff.
Qed.

Lemma violations_nil_compliant now pod policy :
  checkPodViolationsAt now pod policy = [] -> compliant policy pod = true.
Proof.
  unfold checkPodViolationsAt, compliant. fold (allContainers pod).
  destruct (corev1.HostNetwork (corev1.Spec pod)); [discriminate|].
  cbn [app negb andb].
  induction (allContainers pod) as [|c cs IH]; [reflexivity|].
  cbn [flat_map forallb]. intros [Hc Hcs]%app_eq_nil.
  apply containerViolations_nil_iff in Hc. now rewrite Hc, IH.
Qed.

(** X6. Detection finds nothing exactly for a compliant pod: the list of
    violations is empty if and only if the pod does not use the host
    network and none of its containers (init containers included) is a
    privileged one the policy blocks, comes from a registry outside a
    non-empty allow list, or runs as user 0. *)
Theorem no_violation_iff_compliant :
  forall now pod policy,
    checkPodViolationsAt now pod policy = []
    <-> compliant policy pod = true.
Proof.
  intros now pod policy. unfold checkPodViolationsAt, compliant.
  fold (allContainers pod).
  assert (Hall : flat_map (containerViolations now pod policy)
                          (allContainers pod) = []
                 <-> forallb
                       (fun c =>
                          negb (v1alpha1.ShouldBlockPrivileged policy
                                && isPrivileged c)
                          && negb (disallowed policy c)
                          && negb (runsAsRoot c))
                       (allContainers pod) = true).
  { induction (allContainers pod) as [|c cs IH]; [cbn; tauto|].
    cbn [flat_map forallb]. rewrite andb_true_iff, <- IH,
      <- containerViolations_nil_iff.
    split.
    - intros H. now apply app_eq_nil in H.
    - intros [-> ->]. reflexivity. }
  destruct (corev1.HostNetwork (corev1.Spec pod)); cbn [negb andb app].
  - split; discriminate.
  - exact Hall.
Qed.

Lemma containerViolations_wellformed now pod policy c :
  In c (allContainers pod) ->
  Forall (fun e => stamped now pod policy e /\ classified pod policy e)
         (containerViolations now pod policy c).
Proof.
  intros Hin.
  assert (Hp : forall e,
             Container e = corev1.Container.Name c ->
             Image e = corev1.Container.Image c ->
             ((EventType e = "PRIVILEGED_CONTAINER" /\ Severity e = "CRITICAL"
               /\ Action e = getActionString policy)
              \/ (EventType e = "DISALLOWED_REGISTRY" /\ Severity e = "HIGH"
                  /\ Action e = getActionString policy)
              \/ (EventType e = "ROOT_USER" /\ Severity e = "HIGH"
                  /\ Action e = "AUDIT")) ->
             classified pod policy e).
  { intros e Hc Hi Hk. right. exists c. repeat split; assumption. }
  unfold containerViolations.
  apply Forall_app; split; [|apply Forall_app; split].
  - destruct (v1alpha1.ShouldBlockPrivileged policy); [|constructor].
    destruct (corev1.Container.SecurityContext c) as [sc|]; [|constructor].
    destruct (corev1.Privileged sc) as [[|]|]; try apply Forall_nil.
    apply Forall_cons; [|apply Forall_nil].
    split; [repeat split|]. apply Hp; try reflexivity. left. repeat split.
  - destruct (0 <? _)%nat; [|constructor].
    destruct (negb _); [|apply Forall_nil].
    apply Forall_cons; [|apply Forall_nil].
    split; [repeat split|]. apply Hp; try reflexivity.
    right; left. repeat split.
  - destruct (corev1.Container.SecurityContext c) as [sc|]; [|constructor].
    destruct (corev1.RunAsUser sc) as [uid|]; [|constructor].
    destruct (uid =? 0); [|apply Forall_nil].
    apply Forall_cons; [|apply Forall_nil].
    split; [repeat split|]. apply Hp; try reflexivity.
    right; right. repeat split.
Qed.

Lemma checkPodViolationsAt_about_pod now pod policy :
  Forall (fun e => PodName e = corev1.Name pod
                   /\ Namespace e = corev1.Namespace pod)
         (checkPodViolationsAt now pod policy).
Proof.
  unfold checkPodViolationsAt. fold (allContainers pod).
  apply Forall_app. split.
  - destruct (corev1.HostNetwork (corev1.Spec pod)); [|apply Forall_nil].
    apply Forall_cons; [now split|apply Forall_nil].
  - apply Forall_flat_map, Forall_forall. intros c Hin.
    eapply Forall_impl; [|now apply containerViolations_wellformed].
    intros e [(_ & Hn & Hns & _) _]. now split.
Qed.

(** X7. Every violation record detection produces carries the timestamp
    of the run, the pod's name, namespace and node and the policy's name,
    and is of one of four kinds with a fixed severity: HOST_NETWORK (HIGH,
    action AUDIT, no container), or, about one of the pod's containers and
    its image, PRIVILEGED_CONTAINER (CRITICAL) or DISALLOWED_REGISTRY (HIGH)
    with the action of the policy's mode, or ROOT_USER (HIGH, action
    AUDIT). *)
Theorem detected_events_are_wellformed :
  forall now pod policy,
    Forall (fun e => stamped now pod policy e /\ classified pod policy e)
           (checkPodViolationsAt now pod policy).
Proof.
  intros now pod policy.
  unfold checkPodViolationsAt. fold (allContainers pod).
  apply Forall_app. split.
  - destruct (corev1.HostNetwork (corev1.Spec pod)); [|apply Forall_nil].
    apply Forall_cons; [|apply Forall_nil].
    split; [repeat split|]. left. repeat split.
  - apply Forall_flat_map, Forall_forall. intros c Hin.
    now apply containerViolations_wellformed.
Qed.

(* ===================================================================== *)
(** ** Further properties: the pass of the pod reconciler *)
(* ===================================================================== *)

(** X8. A pod that is gone, is already terminating or has run to
    completion is left alone: outside [kube-system], when the fetch answers
    NotFound or returns a pod with a deletion timestamp or in phase
    Succeeded or Failed, [Reconcile] makes the fetch and nothing else (the
    policies are not even listed) and returns without an error. *)
Theorem finished_pods_are_left_alone :
  forall world r req st,
    ReqNamespace req <> "kube-system" ->
    (getPod world (ReqNamespace req) (ReqName req) = inl ErrNotFound
     \/ exists pod,
          getPod world (ReqNamespace req) (ReqName req) = inr pod
          /\ (corev1.DeletionTimestamp pod <> None
              \/ corev1.Phase (corev1.Status pod) = "Succeeded"
              \/ corev1.Phase (corev1.Status pod) = "Failed")) ->
    Reconcile world r req st
    = ((emptyResult, None),
       (st ++ [GetPod (ReqNamespace req) (ReqName req)])%list).
Proof.
  intros world r req st Hns Hpod. unfold Reconcile.
  apply String.eqb_neq in Hns. rewrite Hns.
  unfold bind, Get, call.
  destruct Hpod as [->|(pod & -> & Hdone)]; [reflexivity|].
  destruct (corev1.DeletionTimestamp pod); [reflexivity|].
  destruct Hdone as [H|[->| ->]]; [now contradiction H|reflexivity|reflexivity].
Qed.

Lemma finished_pods_are_left_alone_witness :
  let done :=
    {| corev1.Name := "job";
       corev1.Namespace := "default";
       corev1.DeletionTimestamp := None;
       corev1.Spec :=
         {| corev1.HostNetwork := true;
            corev1.NodeName := "node-1";
            corev1.Containers := [Scenario.asRoot];
            corev1.InitContainers := [] |};
       corev1.Status := {| corev1.Phase := "Succeeded" |} |} in
  let world := Scenario.cluster done [Scenario.policy "Enforce"] None in
  Reconcile world Scenario.reconciler Scenario.request []
  = ((emptyResult, None), [GetPod "default" "web"]).
Proof.
  cbv zeta.
  apply (finished_pods_are_left_alone
           (Scenario.cluster _ [Scenario.policy "Enforce"] None)
           Scenario.reconciler Scenario.request []).
  - cbn. discriminate.
  - right. eexists. split; [reflexivity|]. right. left. reflexivity.
Defined.

Lemma violationLoop_result world r req pod violations :
  forall policy st,
    match fst (violationLoop world r pod policy violations st) with
    | Some out => fromServer world req out
    | None => True
    end.
Proof.
  induction violations as [|v vs IH]; intros policy st; [exact I|].
  destruct (v1alpha1.IsEnforcing policy) eqn:Hmode.
  - rewrite violationLoop_enforce_step by assumption. cbn zeta.
    destruct (deletePod world _) as [e|] eqn:E;
      [destruct (IsNotFound e) eqn:Enf|]; cbn; split; try exact I;
      try reflexivity.
    right. right. split; [exact Enf|]. eexists. exact E.
  - rewrite violationLoop_audit_step by assumption. apply IH.
Qed.

Lemma policyLoop_result world r req pod items :
  forall st, fromServer world req (fst (policyLoop world r pod items st)).
Proof.
  induction items as [|policy rest IH]; intros st; [now split|].
  cbn [policyLoop].
  destruct (negb (v1alpha1.ShouldApplyToNamespace policy _)); [apply IH|].
  destruct (v1alpha1.IsDisabled policy); [apply IH|].
  unfold bind. destruct (checkPodViolations world pod policy st) as [vs st1].
  pose proof (violationLoop_result world r req pod vs policy st1) as H.
  destruct (violationLoop world r pod policy vs st1) as [[out|] st2];
    [exact H|apply IH].
Qed.

(** X9. [Reconcile] never asks to be requeued, and an error it returns is
    always the very error the API server gave to the fetch of the pod or to
    a delete (and then not a NotFound) or to the listing of the policies;
    no failure of the audit service or of a status write is ever
    returned. *)
Theorem Reconcile_returns_server_errors_only :
  forall world r req st,
    fst (fst (Reconcile world r req st)) = emptyResult
    /\ match snd (fst (Reconcile world r req st)) with
       | None => True
       | Some e =>
           (IsNotFound e = false
            /\ getPod world (ReqNamespace req) (ReqName req) = inl e)
           \/ listPolicies world = inl e
           \/ (IsNotFound e = false
               /\ exists n, deletePod world n = Some e)
       end.
Proof.
  intros world r req st.
  change (fromServer world req (fst (Reconcile world r req st))).
  unfold Reconcile.
  destruct (ReqNamespace req =? "kube-system")%string; [now split|].
  unfold bind at 1, Get, call at 1.
  destruct (getPod world _ _) as [err|pod] eqn:Eget.
  { destruct (IsNotFound err) eqn:Enf; cbn; split; try reflexivity;
      try exact I. left. now split. }
  destruct (corev1.DeletionTimestamp pod); [now split|].
  destruct (_ || _); [now split|].
  unfold bind at 1, List_, call at 1.
  destruct (listPolicies world) as [err|policies] eqn:Elist.
  - cbn. split; [reflexivity|]. right; left. exact Elist.
  - apply policyLoop_result.
Qed.

Lemma policyLoop_compliant world r pod items :
  (forall p, In p items ->
             v1alpha1.ShouldApplyToNamespace p (corev1.Namespace pod) = true ->
             v1alpha1.IsDisabled p = false ->
             compliant p pod = true) ->
  forall st,
    policyLoop world r pod items st
    = ((emptyResult, None),
       (st ++ repeat ReadClock
                     (List.length
                        (filter (fun p =>
                                   v1alpha1.ShouldApplyToNamespace
                                     p (corev1.Namespace pod)
                                   && negb (v1alpha1.IsDisabled p))
                                items)))%list).
Proof.
  induction items as [|policy rest IH]; intros Hok st.
  - cbn. now rewrite app_nil_r.
  - assert (Hrest : forall p, In p rest ->
                      v1alpha1.ShouldApplyToNamespace
                        p (corev1.Namespace pod) = true ->
                      v1alpha1.IsDisabled p = false ->
                      compliant p pod = true)
      by (intros p Hin; apply Hok; now right).
    cbn [policyLoop filter].
    destruct (v1alpha1.ShouldApplyToNamespace policy _) eqn:Happly;
      cbn [negb andb]; [|now apply IH].
    destruct (v1alpha1.IsDisabled policy) eqn:Hoff; cbn [negb];
      [now apply IH|].
    unfold bind. rewrite checkPodViolations_run.
    assert (Hnone : checkPodViolationsAt
                      (time.FormatRFC3339 0 (clock world (List.length st)))
                      pod policy = [])
      by (apply no_violation_iff_compliant_aux, Hok;
          [now left|assumption|assumption]).
    rewrite Hnone. cbn [violationLoop ret]. rewrite (IH Hrest).
    cbn [List.length repeat]. now rewrite <- app_assoc.
Qed.

(** X10. A compliant pod is left alone: when a live pod outside
    [kube-system] is compliant with every listed policy that applies to its
    namespace and is not disabled, the pass fetches the pod, lists the
    policies and reads the clock once for each such policy, and does
    nothing else (no event is sent, no status written, nothing deleted); it
    returns without an error. *)
Theorem compliant_pod_is_left_alone :
  forall world r req st pod items,
    ReqNamespace req <> "kube-system" ->
    getPod world (ReqNamespace req) (ReqName req) = inr pod ->
    corev1.DeletionTimestamp pod = None ->
    corev1.Phase (corev1.Status pod) <> "Succeeded" ->
    corev1.Phase (corev1.Status pod) <> "Failed" ->
    listPolicies world = inr items ->
    (forall p, In p items ->
               v1alpha1.ShouldApplyToNamespace p (corev1.Namespace pod) = true ->
               v1alpha1.IsDisabled p = false ->
               compliant p pod = true) ->
    Reconcile world r req st
    = ((emptyResult, None),
       (st ++ GetPod (ReqNamespace req) (ReqName req)
           :: ListPolicies
           :: repeat ReadClock
                     (List.length
                        (filter (fun p =>
                                   v1alpha1.ShouldApplyToNamespace
                                     p (corev1.Namespace pod)
                                   && negb (v1alpha1.IsDisabled p))
                                items)))%list).
Proof.
  intros world r req st pod items Hns Hget Hlive Hs Hf Hlist Hok.
  unfold Reconcile. apply String.eqb_neq in Hns, Hs, Hf. rewrite Hns.
  unfold bind, Get, List_, call. rewrite Hget, Hlive.
  unfold corev1.PodSucceeded, corev1.PodFailed. rewrite Hs, Hf, Hlist.
  cbn [orb]. rewrite (policyLoop_compliant world r pod items Hok).
  now rewrite <- !app_assoc.
Qed.

Lemma compliant_pod_is_left_alone_witness :
  let pod := Scenario.pod false [Scenario.clean] in
  let items := [Scenario.policy "Enforce"; Scenario.policy "Disabled";
                Scenario.policy "Audit"] in
  Reconcile (Scenario.cluster pod items None)
            Scenario.reconciler Scenario.request []
  = ((emptyResult, None),
     [GetPod "default" "web"; ListPolicies; ReadClock; ReadClock]).
Proof.
  cbv zeta.
  apply (compliant_pod_is_left_alone
           (Scenario.cluster (Scenario.pod false [Scenario.clean])
                             [Scenario.policy "Enforce";
                              Scenario.policy "Disabled";
                              Scenario.policy "Audit"] None)
           Scenario.reconciler Scenario.request []
           (Scenario.pod false [Scenario.clean])
           [Scenario.policy "Enforce"; Scenario.policy "Disabled";
            Scenario.policy "Audit"]);
    try reflexivity; try (cbn; discriminate).
  intros p [<-|[<-|[<-|[]]]] _ _; reflexivity.
Defined.

Lemma violationLoop_forgiving world r pod violations :
  forall policy st,
    violationLoop
      (withDeletePod (fun n => forgiven (deletePod world n)) world)
      r pod policy violations st
    = violationLoop world r pod policy violations st.
Proof.
  induction violations as [|v vs IH]; intros policy st; [reflexivity|].
  destruct (v1alpha1.IsEnforcing policy) eqn:Hmode.
  - rewrite !violationLoop_enforce_step by assumption.
    cbn [deletePod withDeletePod zone clock].
    change (posts (withDeletePod _ world) r v) with (posts world r v).
    destruct (deletePod world _) as [[| |msg]|]; reflexivity.
  - rewrite !violationLoop_audit_step by assumption. cbn zeta.
    cbn [zone clock withDeletePod].
    change (posts (withDeletePod _ world) r v) with (posts world r v).
    apply IH.
Qed.

(** X11. A delete answered with NotFound counts as a delete that
    succeeded: a pass returns the same result and makes the same calls
    (the status write that records the termination included) as when the
    API server answers those deletes with success. *)
Theorem delete_NotFound_is_success :
  forall world r req st,
    Reconcile (withDeletePod (fun n => forgiven (deletePod world n)) world)
              r req st
    = Reconcile world r req st.
Proof.
  intros world r req st. unfold Reconcile.
  destruct (ReqNamespace req =? "kube-system")%string; [reflexivity|].
  unfold bind at 1 3, Get, List_, call at 1 3.
  cbn [getPod withDeletePod].
  destruct (getPod world _ _) as [err|pod]; [reflexivity|].
  destruct (corev1.DeletionTimestamp pod); [reflexivity|].
  destruct (_ || _); [reflexivity|].
  unfold bind, call. cbn [listPolicies withDeletePod].
  destruct (listPolicies world) as [err|items]; [reflexivity|].
  generalize ((st ++ [GetPod (ReqNamespace req) (ReqName req)])
                ++ [ListPolicies])%list.
  induction items as [|policy rest IH]; intros t; [reflexivity|].
  cbn [policyLoop].
  destruct (negb (v1alpha1.ShouldApplyToNamespace policy _)); [apply IH|].
  destruct (v1alpha1.IsDisabled policy); [apply IH|].
  unfold bind. rewrite !checkPodViolations_run. cbn [clock withDeletePod].
  rewrite violationLoop_forgiving.
  destruct (violationLoop world r pod policy _ _) as [[out|] t'];
    [reflexivity|apply IH].
Qed.

(** X12. A policy that does not apply to the pod's namespace is skipped
    like a disabled one: the loop over the policies returns the same result
    and makes the same calls as if the policy were not in the list. *)
Theorem inapplicable_policy_is_skipped :
  forall world r pod policy before after st,
    v1alpha1.ShouldApplyToNamespace policy (corev1.Namespace pod) = false ->
    policyLoop world r pod (before ++ policy :: after)%list st
    = policyLoop world r pod (before ++ after)%list st.
Proof.
  intros world r pod policy before after st Hskip. revert st.
  induction before as [|p ps IH]; intros st.
  - cbn [app policyLoop]. now rewrite Hskip.
  - cbn [app policyLoop].
    destruct (negb (v1alpha1.ShouldApplyToNamespace p _)); [apply IH|].
    destruct (v1alpha1.IsDisabled p); [apply IH|].
    unfold bind.
    destruct (checkPodViolations world pod p st) as [vs st1].
    destruct (violationLoop world r pod p vs st1) as [[res|] st2];
      [reflexivity|apply IH].
Qed.

Lemma inapplicable_policy_is_skipped_witness :
  let elsewhere :=
    {| v1alpha1.Name := "prod-only";
       v1alpha1.Namespace := "default";
       v1alpha1.Generation := 1;
       v1alpha1.Spec :=
         {| v1alpha1.BlockPrivileged := true;
            v1alpha1.AllowedRegistries := [];
            v1alpha1.EnforcementMode := "Enforce";
            v1alpha1.TargetNamespaces := ["prod"] |};
       v1alpha1.Status := Scenario.freshStatus |} in
  let pod := Scenario.pod true [Scenario.asRoot] in
  let world := Scenario.cluster pod [] None in
  policyLoop world Scenario.reconciler pod
             ([] ++ elsewhere :: [Scenario.policy "Audit"])%list []
  = policyLoop world Scenario.reconciler pod
               ([] ++ [Scenario.policy "Audit"])%list [].
Proof.
  cbv zeta.
  apply (inapplicable_policy_is_skipped
           (Scenario.cluster (Scenario.pod true [Scenario.asRoot]) [] None)
           Scenario.reconciler (Scenario.pod true [Scenario.asRoot])
           _ [] [Scenario.policy "Audit"] []).
  reflexivity.
Defined.

(** X13. Under an enforcing policy only the first violation counts: the
    loop over the violations returns the same result and makes the same
    calls whatever violations follow the first one, so that these are
    neither sent to the audit service nor counted in the policy status. *)
Theorem enforcing_policy_handles_first_violation_only :
  forall world r pod policy violation rest st,
    v1alpha1.IsEnforcing policy = true ->
    violationLoop world r pod policy (violation :: rest) st
    = violationLoop world r pod policy [violation] st.
Proof.
  intros world r pod policy violation rest st Hmode.
  now rewrite !violationLoop_enforce_step.
Qed.

Lemma enforcing_policy_handles_first_violation_only_witness :
  let pod := Scenario.pod true [Scenario.asRoot] in
  let world := Scenario.cluster pod [Scenario.policy "Enforce"] None in
  let violations :=
    checkPodViolationsAt "2023-11-14T22:13:20Z" pod (Scenario.policy "Enforce")
  in
  List.length violations = 2%nat
  /\ violationLoop world Scenario.reconciler pod (Scenario.policy "Enforce")
                   violations []
     = violationLoop world Scenario.reconciler pod (Scenario.policy "Enforce")
                     (firstn 1 violations) [].
Proof.
  cbv zeta. split; [reflexivity|].
  apply (enforcing_policy_handles_first_violation_only
           (Scenario.cluster (Scenario.pod true [Scenario.asRoot])
                             [Scenario.policy "Enforce"] None)
           Scenario.reconciler (Scenario.pod true [Scenario.asRoot])
           (Scenario.policy "Enforce")).
  reflexivity.
Defined.

Lemma writtenCounts_app (t u : Trace) :
  writtenCounts (t ++ u)%list = (writtenCounts t ++ writtenCounts u)%list.
Proof. apply flat_map_app. Qed.

Lemma writtenCounts_posts world r event :
  writtenCounts (posts world r event) = [].
Proof.
  unfold posts. destruct (AuditServiceURL r =? "")%string; [reflexivity|].
  destruct (newRequest world _); reflexivity.
Qed.

(** X14. Under a policy that is not enforcing the status writes of a pass
    count up: starting from a violations count [c] that leaves room in
    int64, the writes for [k] violations carry the counts [c + 1], ...,
    [c + k] in this order, each write repeating the whole object with the
    count so far. *)
Theorem audit_writes_count_up :
  forall world r pod violations policy st,
    v1alpha1.IsEnforcing policy = false ->
    int64.min <= v1alpha1.ViolationsCount (v1alpha1.Status policy) ->
    v1alpha1.ViolationsCount (v1alpha1.Status policy)
      + Z.of_nat (List.length violations) <= int64.max ->
    exists delta,
      snd (violationLoop world r pod policy violations st) = (st ++ delta)%list
      /\ writtenCounts delta
         = map (fun i => v1alpha1.ViolationsCount (v1alpha1.Status policy)
                         + Z.of_nat i)
               (seq 1 (List.length violations)).
Proof.
  intros world r pod violations.
  induction violations as [|v vs IH]; intros policy st Hmode Hlo Hhi.
  - exists []. cbn. now rewrite app_nil_r.
  - rewrite violationLoop_audit_step by assumption. cbn zeta.
    set (policy' := statusAfter _ _ policy false).
    assert (Hcount : v1alpha1.ViolationsCount (v1alpha1.Status policy')
                     = v1alpha1.ViolationsCount (v1alpha1.Status policy) + 1).
    { cbn. unfold int64.wrap, int64.min, int64.max in *.
      cbn [List.length] in Hhi. rewrite Z.mod_small by lia. lia. }
    destruct (IH policy'
                 ((st ++ posts world r v)
                    ++ [ReadClock; UpdateStatus policy'])%list)
      as (delta & Hrun & Hwritten).
    + exact Hmode.
    + rewrite Hcount. lia.
    + rewrite Hcount. cbn [List.length] in Hhi. lia.
    + exists (posts world r v ++ [ReadClock; UpdateStatus policy'] ++ delta)%list.
      split; [now rewrite Hrun, <- !app_assoc|].
      rewrite !writtenCounts_app, writtenCounts_posts, Hwritten.
      cbn [app writtenCounts flat_map List.length seq map].
      rewrite Hcount. change (Z.of_nat 1) with 1. f_equal.
      rewrite <- (seq_shift (List.length vs) 1), map_map.
      apply map_ext. intros i. lia.
Qed.

Lemma audit_writes_count_up_witness :
  let pod := Scenario.pod true [Scenario.asRoot] in
  let world := Scenario.cluster pod [Scenario.policy "Audit"] None in
  let violations :=
    checkPodViolationsAt "2023-11-14T22:13:20Z" pod (Scenario.policy "Audit") in
  exists delta,
    snd (violationLoop world Scenario.reconciler pod (Scenario.policy "Audit")
                       violations [])
    = ([] ++ delta)%list
    /\ writtenCounts delta = [0 + 1; 0 + 2].
Proof.
  cbv zeta.
  destruct (audit_writes_count_up
              (Scenario.cluster (Scenario.pod true [Scenario.asRoot])
                                [Scenario.policy "Audit"] None)
              Scenario.reconciler (Scenario.pod true [Scenario.asRoot])
              (checkPodViolationsAt "2023-11-14T22:13:20Z"
                                    (Scenario.pod true [Scenario.asRoot])
                                    (Scenario.policy "Audit"))
              (Scenario.policy "Audit") [] eq_refl)
    as (delta & Hrun & Hcounts).
  - vm_compute. discriminate.
  - vm_compute. discriminate.
  - exists delta. split; [exact Hrun|exact Hcounts].
Defined.

(* ===================================================================== *)
(** ** Further properties: what a pass may call *)
(* ===================================================================== *)

Lemma samePolicy_refl p : samePolicy p p.
Proof. repeat split. Qed.

Lemma samePolicy_statusAfter now z p0 p b :
  samePolicy p0 p -> samePolicy p0 (statusAfter now z p b).
Proof.
  intros (Hn & Hns & Hg & Hs & Hc & Ho).
  destruct b; repeat split; assumption.
Qed.

Lemma samePolicy_IsEnforcing p0 p :
  samePolicy p0 p -> v1alpha1.IsEnforcing p = v1alpha1.IsEnforcing p0.
Proof.
  intros (_ & _ & _ & Hs & _). unfold v1alpha1.IsEnforcing. now rewrite Hs.
Qed.

Lemma posts_loopCall world r pod policy0 (about : SecurityEvent -> Prop) v :
  about v -> Forall (loopCall r pod policy0 about) (posts world r v).
Proof.
  intros Hv. unfold posts.
  destruct (String.eqb_spec (AuditServiceURL r) "") as [|Hurl]; [constructor|].
  destruct (newRequest world _); constructor; [|constructor].
  cbn. repeat split; assumption.
Qed.

Lemma statusAfter_Active now z p b :
  v1alpha1.Phase (v1alpha1.Status (statusAfter now z p b)) = "Active".
Proof. now destruct b. Qed.

Lemma violationLoop_calls world r pod policy0
      (about : SecurityEvent -> Prop) violations :
  Forall about violations ->
  forall policy st,
    samePolicy policy0 policy ->
    exists delta,
      snd (violationLoop world r pod policy violations st) = (st ++ delta)%list
      /\ Forall (loopCall r pod policy0 about) delta.
Proof.
  induction violations as [|v vs IH]; intros Hall policy st Hsame.
  - exists []. cbn. rewrite app_nil_r. split; [reflexivity|constructor].
  - inversion Hall as [|? ? Hv Hvs]; subst.
    assert (Hposts := posts_loopCall world r pod policy0 about v Hv).
    destruct (v1alpha1.IsEnforcing policy) eqn:Hmode.
    + rewrite violationLoop_enforce_step by assumption. cbn zeta.
      rewrite (samePolicy_IsEnforcing _ _ Hsame) in Hmode.
      set (del := DeletePod (corev1.Namespace pod) (corev1.Name pod) 0).
      set (policy' := statusAfter _ _ policy true).
      assert (Hdel : loopCall r pod policy0 about del) by (cbn; auto).
      assert (Hupd : loopCall r pod policy0 about (UpdateStatus policy')).
      { split; [apply statusAfter_Active|now apply samePolicy_statusAfter]. }
      destruct (deletePod world _) as [e|]; [destruct (negb (IsNotFound e))|];
        cbn [snd].
      * exists (posts world r v ++ [del])%list. rewrite <- app_assoc.
        split; [reflexivity|]. apply Forall_app. split; [assumption|].
        exact (Forall_cons _ Hdel (Forall_nil _)).
      * exists (posts world r v ++ [del; ReadClock; UpdateStatus policy'])%list.
        rewrite <- !app_assoc. split; [reflexivity|].
        apply Forall_app. split; [assumption|].
        apply Forall_cons; [exact Hdel|]. apply Forall_cons; [exact I|].
        apply Forall_cons; [exact Hupd|apply Forall_nil].
      * exists (posts world r v ++ [del; ReadClock; UpdateStatus policy'])%list.
        rewrite <- !app_assoc. split; [reflexivity|].
        apply Forall_app. split; [assumption|].
        apply Forall_cons; [exact Hdel|]. apply Forall_cons; [exact I|].
        apply Forall_cons; [exact Hupd|apply Forall_nil].
    + rewrite violationLoop_audit_step by assumption. cbn zeta.
      set (policy' := statusAfter _ _ policy false).
      destruct (IH Hvs policy'
                   ((st ++ posts world r v)
                      ++ [ReadClock; UpdateStatus policy'])%list)
        as (delta & Hrun & Hcalls);
        [now apply samePolicy_statusAfter|].
      exists (posts world r v ++ [ReadClock; UpdateStatus policy'] ++ delta)%list.
      rewrite Hrun, <- !app_assoc. split; [reflexivity|].
      apply Forall_app. split; [assumption|].
      apply Forall_cons; [exact I|]. apply Forall_cons; [|assumption].
      split; [apply statusAfter_Active|now apply samePolicy_statusAfter].
Qed.

Lemma policyLoop_calls world r req pod items0 items :
  incl items items0 ->
  forall st,
  exists delta,
    snd (policyLoop world r pod items st) = (st ++ delta)%list
    /\ Forall (passCall r req pod items0) delta.
Proof.
  induction items as [|policy rest IH]; intros Hincl st.
  - exists []. cbn. rewrite app_nil_r. split; [reflexivity|constructor].
  - assert (Hrest : incl rest items0)
      by (intros p Hp; apply Hincl; now right).
    assert (Hin : In policy items0) by (apply Hincl; now left).
    cbn [policyLoop].
    destruct (v1alpha1.ShouldApplyToNamespace policy _) eqn:Happly;
      cbn [negb]; [|now apply IH].
    destruct (v1alpha1.IsDisabled policy) eqn:Hoff; [now apply IH|].
    unfold bind at 1. rewrite checkPodViolations_run.
    set (vs := checkPodViolationsAt _ pod policy).
    assert (Habout : Forall (fun e => PodName e = corev1.Name pod
                                      /\ Namespace e = corev1.Namespace pod)
                            vs).
    { apply checkPodViolationsAt_about_pod. }
    destruct (violationLoop_calls world r pod policy _ vs Habout policy
                                  (st ++ [ReadClock])%list
                                  (samePolicy_refl policy))
      as (delta & Hrun & Hcalls).
    assert (Hpass : Forall (passCall r req pod items0) delta).
    { eapply Forall_impl; [|exact Hcalls].
      intros [| | |url ev|ns n g|p]; cbn; try tauto.
      - intros (-> & -> & -> & Hmode). repeat split.
        exists policy. repeat split; assumption.
      - intros (Hphase & Hsame). split; [exact Hphase|].
        exists policy. repeat split; try assumption; apply Hsame. }
    unfold bind.
    destruct (violationLoop world r pod policy vs _) as [[out|] st'];
      cbn [snd] in Hrun; subst st'.
    + exists ([ReadClock] ++ delta)%list. cbn [ret snd].
      rewrite <- app_assoc. split; [reflexivity|].
      constructor; [exact I|assumption].
    + destruct (IH Hrest ((st ++ [ReadClock]) ++ delta)%list)
        as (d & Hd & Hcalls').
      exists ([ReadClock] ++ delta ++ d)%list. rewrite Hd, <- !app_assoc.
      split; [reflexivity|]. constructor; [exact I|].
      apply Forall_app. now split.
Qed.

Lemma Reconcile_calls world r req st :
  exists delta,
    snd (Reconcile world r req st) = (st ++ delta)%list
    /\ Forall (reconcileCall world r req) delta.
Proof.
  unfold Reconcile.
  destruct (ReqNamespace req =? "kube-system")%string.
  { exists []. cbn. rewrite app_nil_r. split; [reflexivity|constructor]. }
  unfold bind at 1, Get, call at 1.
  assert (Hget : reconcileCall world r req
                               (GetPod (ReqNamespace req) (ReqName req)))
    by now split.
  destruct (getPod world _ _) as [err|pod] eqn:Eget.
  { eexists [_]. split; [now destruct (IsNotFound err)|].
    constructor; [exact Hget|constructor]. }
  destruct (corev1.DeletionTimestamp pod).
  { eexists [_]. split; [reflexivity|]. constructor; [exact Hget|constructor]. }
  destruct (_ || _).
  { eexists [_]. split; [reflexivity|]. constructor; [exact Hget|constructor]. }
  unfold bind at 1, List_, call at 1.
  destruct (listPolicies world) as [err|items] eqn:Elist.
  { eexists [_; _]. cbn [ret snd]. rewrite <- app_assoc.
    split; [reflexivity|]. repeat constructor; exact Hget. }
  destruct (policyLoop_calls world r req pod items items (incl_refl _)
              ((st ++ [GetPod (ReqNamespace req) (ReqName req)])
                 ++ [ListPolicies])%list) as (d & Hd & Hcalls).
  exists ([GetPod (ReqNamespace req) (ReqName req); ListPolicies] ++ d)%list.
  rewrite Hd, <- !app_assoc. split; [reflexivity|].
  constructor; [exact Hget|]. constructor; [exact I|].
  eapply Forall_impl; [|exact Hcalls].
  intros [| | |url ev|ns n g|p] Hc; cbn; try exact I; try exact Hc;
    exists pod, items; repeat split; try assumption; apply Hc.
Qed.

(** X15. The only pod a pass ever deletes is the pod it fetched for the
    request, at once (grace period 0), and only when one of the listed
    policies applies to the pod's namespace and is enforcing. *)
Theorem pass_deletes_only_the_fetched_pod :
  forall world r req st,
  exists delta,
    snd (Reconcile world r req st) = (st ++ delta)%list
    /\ Forall
         (fun c =>
            match c with
            | DeletePod namespace name grace =>
                grace = 0
                /\ exists pod items p0,
                     getPod world (ReqNamespace req) (ReqName req) = inr pod
                     /\ namespace = corev1.Namespace pod
                     /\ name = corev1.Name pod
                     /\ listPolicies world = inr items
                     /\ In p0 items
                     /\ v1alpha1.IsEnforcing p0 = true
                     /\ v1alpha1.ShouldApplyToNamespace
                          p0 (corev1.Namespace pod) = true
            | _ => True
            end) delta.
Proof.
  intros world r req st.
  destruct (Reconcile_calls world r req st) as (delta & Hrun & Hcalls).
  exists delta. split; [exact Hrun|].
  eapply Forall_impl; [|exact Hcalls].
  intros [| | |url ev|ns n g|p]; try (intros; exact I).
  intros (pod & items & Hget & Hlist & Hns & Hn & Hg & p0 & Hin & He & Ha).
  split; [exact Hg|]. exists pod, items, p0. repeat split; assumption.
Qed.

(** X16. A pass writes the status only of listed policies that apply to
    the fetched pod's namespace and are not disabled, and a write changes
    nothing but the status fields of [updatePolicyStatus]: the written
    object has the name, namespace, generation, spec, conditions and
    observed generation of the listed policy, and phase Active. *)
Theorem pass_writes_only_applicable_policies :
  forall world r req st,
  exists delta,
    snd (Reconcile world r req st) = (st ++ delta)%list
    /\ Forall
         (fun c =>
            match c with
            | UpdateStatus p =>
                v1alpha1.Phase (v1alpha1.Status p) = "Active"
                /\ exists pod items p0,
                     getPod world (ReqNamespace req) (ReqName req) = inr pod
                     /\ listPolicies world = inr items
                     /\ In p0 items
                     /\ v1alpha1.IsDisabled p0 = false
                     /\ v1alpha1.ShouldApplyToNamespace
                          p0 (corev1.Namespace pod) = true
                     /\ v1alpha1.Name p = v1alpha1.Name p0
                     /\ v1alpha1.Namespace p = v1alpha1.Namespace p0
                     /\ v1alpha1.Generation p = v1alpha1.Generation p0
                     /\ v1alpha1.Spec p = v1alpha1.Spec p0
                     /\ v1alpha1.Conditions (v1alpha1.Status p)
                        = v1alpha1.Conditions (v1alpha1.Status p0)
                     /\ v1alpha1.ObservedGeneration (v1alpha1.Status p)
                        = v1alpha1.ObservedGeneration (v1alpha1.Status p0)
            | _ => True
            end) delta.
Proof.
  intros world r req st.
  destruct (Reconcile_calls world r req st) as (delta & Hrun & Hcalls).
  exists delta. split; [exact Hrun|].
  eapply Forall_impl; [|exact Hcalls].
  intros [| | |url ev|ns n g|p]; try (intros; exact I).
  intros (pod & items & Hget & Hlist & Hphase & p0 & Hin & Hsame & Hd & Ha).
  split; [exact Hphase|]. exists pod, items, p0.
  destruct Hsame as (H1 & H2 & H3 & H4 & H5 & H6).
  repeat split; assumption.
Qed.

(** X17. Nothing is posted when no audit service URL is configured, and
    every post of a pass goes to the configured URL followed by [/log] and
    carries an event about the fetched pod. *)
Theorem pass_posts_only_to_the_audit_service :
  forall world r req st,
  exists delta,
    snd (Reconcile world r req st) = (st ++ delta)%list
    /\ Forall
         (fun c =>
            match c with
            | Post url event =>
                AuditServiceURL r <> ""
                /\ url = (AuditServiceURL r ++ "/log")%string
                /\ exists pod,
                     getPod world (ReqNamespace req) (ReqName req) = inr pod
                     /\ PodName event = corev1.Name pod
                     /\ Namespace event = corev1.Namespace pod
            | _ => True
            end) delta.
Proof.
  intros world r req st.
  destruct (Reconcile_calls world r req st) as (delta & Hrun & Hcalls).
  exists delta. split; [exact Hrun|].
  eapply Forall_impl; [|exact Hcalls].
  intros [| | |url ev|ns n g|p]; try (intros; exact I).
  intros (pod & items & Hget & Hlist & Hurl & Heq & Hn & Hns).
  split; [exact Hurl|]. split; [exact Heq|].
  exists pod. repeat split; assumption.
Qed.

(* ===================================================================== *)
(** ** Further properties: the configuration *)
(* ===================================================================== *)

(** X18. The audit service URL the configuration reads from the
    environment is never empty (an empty [AUDIT_SERVICE_URL] counts as
    unset and gives the default); so a reconciler built from it without the
    command-line flag never skips an event for want of a URL: it posts the
    event to that URL followed by [/log] exactly when the HTTP request can
    be built for it, and makes no call otherwise. *)
Theorem configured_url_is_never_empty :
  forall Getenv Atoi ParseDuration,
    let cfg := config.NewConfig Getenv Atoi ParseDuration in
    let r := operator.podReconciler cfg None in
    config.AuditServiceURL cfg <> ""
    /\ forall world event st,
         sendSecurityEvent world r event st
         = (tt, (st ++ (if newRequest world
                             (config.AuditServiceURL cfg ++ "/log")
                        then [Post (config.AuditServiceURL cfg ++ "/log")
                                   event]
                        else []))%list).
Proof.
  intros Getenv Atoi ParseDuration. cbv zeta.
  assert (Hurl : config.AuditServiceURL
                   (config.NewConfig Getenv Atoi ParseDuration) <> "").
  { cbn. unfold config.getEnvOrDefault.
    destruct (String.eqb_spec (Getenv "AUDIT_SERVICE_URL") "") as [|Hset];
      cbn [negb]; [discriminate|exact Hset]. }
  split; [exact Hurl|].
  intros world event st. rewrite sendSecurityEvent_run. unfold posts.
  cbn [operator.podReconciler operator.NewPodReconciler AuditServiceURL].
  apply String.eqb_neq in Hurl. now rewrite Hurl.
Qed.

(** X19. With none of the operator's variables set in the environment (or
    all of them set to the empty string), the configuration consists of the
    defaults: metrics on [:8080], probes on [:8081], no leader election,
    lock [kubeshield-operator-lock], audit service
    [http://audit-service:8000], a sync period of ten minutes, all
    namespaces watched and log level 0, whatever the parsers would do. *)
Theorem NewConfig_defaults :
  forall Getenv Atoi ParseDuration,
    (forall key,
        In key ["METRICS_ADDR"; "PROBE_ADDR"; "ENABLE_LEADER_ELECTION";
                "LEADER_ELECTION_ID"; "AUDIT_SERVICE_URL"; "SYNC_PERIOD";
                "WATCH_NAMESPACE"; "LOG_LEVEL"] ->
        Getenv key = "") ->
    config.NewConfig Getenv Atoi ParseDuration
    = {| config.MetricsAddr := ":8080";
         config.ProbeAddr := ":8081";
         config.EnableLeaderElection := false;
         config.LeaderElectionID := "kubeshield-operator-lock";
         config.AuditServiceURL := "http://audit-service:8000";
         config.SyncPeriod := 600000000000;
         config.Namespace := "";
         config.LogLevel := 0 |}.
Proof.
  intros Getenv Atoi ParseDuration Hunset.
  unfold config.NewConfig, config.getEnvOrDefault, config.getEnvBoolOrDefault,
    config.getEnvIntOrDefault, config.getEnvDurationOrDefault.
  rewrite !Hunset by (cbn; tauto). reflexivity.
Qed.

Lemma NewConfig_defaults_witness :
  config.NewConfig (fun key => if (key =? "HOME")%string then "/root" else "")
                   (fun _ => None) (fun _ => None)
  = {| config.MetricsAddr := ":8080";
       config.ProbeAddr := ":8081";
       config.EnableLeaderElection := false;
       config.LeaderElectionID := "kubeshield-operator-lock";
       config.AuditServiceURL := "http://audit-service:8000";
       config.SyncPeriod := 600000000000;
       config.Namespace := "";
       config.LogLevel := 0 |}.
Proof.
  apply (NewConfig_defaults
           (fun key => if (key =? "HOME")%string then "/root" else "")).
  intros key Hkey. cbn in Hkey.
  repeat (destruct Hkey as [<-|Hkey]; [reflexivity|]). contradiction.
Defined.

(** X20. A boolean variable changes the default only through one of the
    spellings [strconv.ParseBool] accepts: [getEnvBoolOrDefault] differs
    from the default only if the variable is set to one of [1 t T TRUE true
    True] (default false) or of [0 f F FALSE false False] (default true);
    any other value, such as [yes], leaves the default in place. *)
Theorem getEnvBoolOrDefault_changes_only_on_literals :
  forall Getenv key defaultValue,
    config.getEnvBoolOrDefault Getenv key defaultValue <> defaultValue ->
    In (Getenv key)
       (if defaultValue
        then ["0"; "f"; "F"; "FALSE"; "false"; "False"]
        else ["1"; "t"; "T"; "TRUE"; "true"; "True"]).
Proof.
  intros Getenv key defaultValue. unfold config.getEnvBoolOrDefault.
  destruct (Getenv key =? "")%string; [intros H; now contradiction H|].
  unfold strconv.ParseBool.
  destruct (existsb _ ["1"; "t"; "T"; "TRUE"; "true"; "True"]) eqn:Et.
  - destruct defaultValue; [intros H; now contradiction H|]. intros _.
    apply existsb_exists in Et as (x & Hin & Hx).
    apply String.eqb_eq in Hx. now subst.
  - destruct (existsb _ ["0"; "f"; "F"; "FALSE"; "false"; "False"]) eqn:Ef;
      [|intros H; now contradiction H].
    destruct defaultValue; [|intros H; now contradiction H]. intros _.
    apply existsb_exists in Ef as (x & Hin & Hx).
    apply String.eqb_eq in Hx. now subst.
Qed.

Lemma getEnvBoolOrDefault_changes_only_on_literals_witness :
  let Getenv := fun key =>
                  if (key =? "ENABLE_LEADER_ELECTION")%string then "T" else "" in
  config.getEnvBoolOrDefault Getenv "ENABLE_LEADER_ELECTION" false <> false
  /\ In (Getenv "ENABLE_LEADER_ELECTION")
        ["1"; "t"; "T"; "TRUE"; "true"; "True"].
Proof.
  cbv zeta.
  assert (H : config.getEnvBoolOrDefault
                (fun key => if (key =? "ENABLE_LEADER_ELECTION")%string
                            then "T" else "")
                "ENABLE_LEADER_ELECTION" false <> false)
    by (vm_compute; discriminate).
  split; [exact H|].
  exact (getEnvBoolOrDefault_changes_only_on_literals _ _ false H).
Defined.

(* ===================================================================== *)
(** ** Further properties: the policy reconciler *)
(* ===================================================================== *)

Lemma checkGeneration_run world policy st :
  policy_controller.checkGeneration world policy st
  = if v1alpha1.Generation policy
       =? v1alpha1.ObservedGeneration (v1alpha1.Status policy)
    then ((policy_controller.requeueLater, None), st)
    else
      let policy' :=
        policy_controller.observed
          (policy_controller.clock world (List.length st)) policy in
      (match policy_controller.updateStatus
               world (List.length (st ++ [policy_controller.ReadClock])) with
       | Some e => (emptyResult, Some e)
       | None => (policy_controller.requeueLater, None)
       end,
       (st ++ [policy_controller.ReadClock;
               policy_controller.UpdateStatus policy'])%list).
Proof.
  unfold policy_controller.checkGeneration.
  destruct (_ =? _); [reflexivity|]. cbn [negb].
  unfold policy_controller.bind, policy_controller.Now,
    policy_controller.StatusUpdate, policy_controller.call,
    policy_controller.ret.
  rewrite <- app_assoc.
  now destruct (policy_controller.updateStatus world _).
Qed.

(** X21. A policy in steady state costs one fetch: when the fetched policy
    has a phase and its observed generation equals its generation, the
    policy reconciler writes nothing, reads no clock, and asks to be
    requeued after 30 seconds. *)
Theorem steady_policy_is_not_written :
  forall world req st policy,
    policy_controller.getPolicy world (ReqNamespace req) (ReqName req)
    = inr policy ->
    v1alpha1.Phase (v1alpha1.Status policy) <> "" ->
    v1alpha1.ObservedGeneration (v1alpha1.Status policy)
    = v1alpha1.Generation policy ->
    policy_controller.Reconcile world req st
    = ((policy_controller.requeueLater, None),
       (st ++ [policy_controller.GetPolicy (ReqNamespace req) (ReqName req)])%list).
Proof.
  intros world req st policy Hget Hphase Hgen.
  unfold policy_controller.Reconcile, policy_controller.bind,
    policy_controller.Get, policy_controller.call.
  rewrite Hget. apply String.eqb_neq in Hphase. rewrite Hphase.
  rewrite checkGeneration_run, Hgen, Z.eqb_refl. reflexivity.
Qed.

Lemma steady_policy_is_not_written_witness :
  let policy :=
    statusAfter 1700000000000000000 0
                (policy_controller.initialised 1690000000000000000
                                               (Scenario.policy "Enforce"))
                true in
  let world :=
    {| policy_controller.getPolicy := fun _ _ => inr policy;
       policy_controller.updateStatus := fun _ => Some ErrConflict;
       policy_controller.clock := fun _ => 1700000100000000000 |} in
  policy_controller.Reconcile world Scenario.request []
  = ((policy_controller.requeueLater, None), [policy_controller.GetPolicy "default" "web"]).
Proof.
  cbv zeta.
  apply (steady_policy_is_not_written
           {| policy_controller.getPolicy :=
                fun _ _ =>
                  inr (statusAfter 1700000000000000000 0
                         (policy_controller.initialised
                            1690000000000000000 (Scenario.policy "Enforce"))
                         true);
              policy_controller.updateStatus := fun _ => Some ErrConflict;
              policy_controller.clock := fun _ => 1700000100000000000 |}
           Scenario.request [] _ eq_refl).
  - cbn. discriminate.
  - reflexivity.
Defined.

(** What a pass of the policy reconciler over the fetched [policy] writes:
    nothing, or once an object in steady state that keeps the policy's
    identity, spec, counters and last enforcement time and has a single
    Ready condition. *)
Lemma policy_pass_calls world req st :
  exists delta,
    snd (policy_controller.Reconcile world req st) = (st ++ delta)%list
    /\ (writtenPolicies delta = []
        \/ exists policy p,
             policy_controller.getPolicy world (ReqNamespace req) (ReqName req)
             = inr policy
             /\ writtenPolicies delta = [p]
             /\ steadyWrite policy p).
Proof.
  unfold policy_controller.Reconcile.
  unfold policy_controller.bind at 1, policy_controller.Get,
    policy_controller.call at 1.
  destruct (policy_controller.getPolicy world _ _) as [err|policy] eqn:Eget.
  { eexists [_]. split; [now destruct (IsNotFound err)|]. now left. }
  destruct (String.eqb_spec (v1alpha1.Phase (v1alpha1.Status policy)) "")
    as [Hfresh|Hphase].
  - unfold policy_controller.bind, policy_controller.Now,
      policy_controller.StatusUpdate, policy_controller.call.
    set (p := policy_controller.initialised _ policy).
    exists [policy_controller.GetPolicy (ReqNamespace req) (ReqName req);
            policy_controller.ReadClock; policy_controller.UpdateStatus p].
    split.
    + destruct (policy_controller.updateStatus world _);
        [cbn; now rewrite <- !app_assoc|].
      rewrite checkGeneration_run.
      change (v1alpha1.ObservedGeneration (v1alpha1.Status p))
        with (v1alpha1.Generation p).
      rewrite Z.eqb_refl. cbn. now rewrite <- !app_assoc.
    + right. exists policy, p. split; [reflexivity|]. split; [reflexivity|].
      unfold steadyWrite. cbn. repeat split; try discriminate.
      eexists. repeat split.
  - rewrite checkGeneration_run.
    destruct (_ =? _).
    + eexists [_]. split; [reflexivity|now left].
    + cbv zeta. set (p := policy_controller.observed _ policy).
      exists [policy_controller.GetPolicy (ReqNamespace req) (ReqName req);
              policy_controller.ReadClock; policy_controller.UpdateStatus p].
      split; [cbn; now rewrite <- !app_assoc|].
      right. exists policy, p. split; [reflexivity|]. split; [reflexivity|].
      unfold steadyWrite. cbn. repeat split; try assumption.
      eexists. repeat split.
Qed.

(** X22. A pass of the policy reconciler writes the status at most once,
    and what it writes is in steady state and keeps what the pod reconciler
    recorded: the written object has a phase, its observed generation
    equals its generation, it has the name, namespace, generation, spec,
    violation and termination counts and last enforcement time of the
    fetched policy, and its conditions are a single Ready condition with
    status True (earlier conditions are replaced). *)
Theorem policy_pass_writes_once_and_keeps_counters :
  forall world req st,
  exists delta,
    snd (policy_controller.Reconcile world req st) = (st ++ delta)%list
    /\ (writtenPolicies delta = []
        \/ exists policy p,
             policy_controller.getPolicy world (ReqNamespace req) (ReqName req)
             = inr policy
             /\ writtenPolicies delta = [p]
             /\ v1alpha1.Phase (v1alpha1.Status p) <> ""
             /\ v1alpha1.ObservedGeneration (v1alpha1.Status p)
                = v1alpha1.Generation p
             /\ v1alpha1.Name p = v1alpha1.Name policy
             /\ v1alpha1.Namespace p = v1alpha1.Namespace policy
             /\ v1alpha1.Generation p = v1alpha1.Generation policy
             /\ v1alpha1.Spec p = v1alpha1.Spec policy
             /\ v1alpha1.ViolationsCount (v1alpha1.Status p)
                = v1alpha1.ViolationsCount (v1alpha1.Status policy)
             /\ v1alpha1.TerminationsCount (v1alpha1.Status p)
                = v1alpha1.TerminationsCount (v1alpha1.Status policy)
             /\ v1alpha1.LastEnforcementTime (v1alpha1.Status p)
                = v1alpha1.LastEnforcementTime (v1alpha1.Status policy)
             /\ exists condition,
                  v1alpha1.Conditions (v1alpha1.Status p) = [condition]
                  /\ v1alpha1.Type_ condition = "Ready"
                  /\ v1alpha1.ConditionStatus condition = "True").
Proof.
  intros world req st.
  destruct (policy_pass_calls world req st) as (delta & Hrun & Hw).
  exists delta. split; [exact Hrun|].
  destruct Hw as [Hnone|(policy & p & Hget & Hone & Hsteady)]; [now left|].
  right. exists policy, p. split; [exact Hget|]. split; [exact Hone|].
  exact Hsteady.
Qed.

(** X23. The policy reconciler converges: a policy as a pass has written it
    needs no further write; a later pass that fetches that object makes the
    fetch only and asks to be requeued after 30 seconds. *)
Theorem policy_pass_is_idempotent :
  forall world req p world' req' st',
    In p (writtenPolicies (snd (policy_controller.Reconcile world req []))) ->
    policy_controller.getPolicy world' (ReqNamespace req') (ReqName req')
    = inr p ->
    policy_controller.Reconcile world' req' st'
    = ((policy_controller.requeueLater, None),
       (st' ++ [policy_controller.GetPolicy (ReqNamespace req')
                                            (ReqName req')])%list).
Proof.
  intros world req p world' req' st' Hin Hget.
  destruct (policy_pass_calls world req []) as (delta & Hrun & Hw).
  rewrite Hrun in Hin. cbn [app] in Hin.
  destruct Hw as [Hnone|(policy & p' & _ & Hone & Hsteady)];
    [rewrite Hnone in Hin; contradiction|].
  rewrite Hone in Hin. destruct Hin as [<-|[]].
  destruct Hsteady as (Hphase & Hgen & _).
  unfold policy_controller.Reconcile, policy_controller.bind,
    policy_controller.Get, policy_controller.call.
  rewrite Hget. apply String.eqb_neq in Hphase. rewrite Hphase.
  rewrite checkGeneration_run, Hgen, Z.eqb_refl. reflexivity.
Qed.

Lemma policy_pass_is_idempotent_witness :
  let fresh := Scenario.policy "Enforce" in
  let world :=
    {| policy_controller.getPolicy := fun _ _ => inr fresh;
       policy_controller.updateStatus := fun _ => None;
       policy_controller.clock := fun _ => 1700000000000000000 |} in
  let written := policy_controller.initialised 1700000000000000000 fresh in
  let world' :=
    {| policy_controller.getPolicy := fun _ _ => inr written;
       policy_controller.updateStatus := fun _ => None;
       policy_controller.clock := fun _ => 1700000030000000000 |} in
  In written
     (writtenPolicies (snd (policy_controller.Reconcile world Scenario.request [])))
  /\ policy_controller.Reconcile world' Scenario.request []
     = ((policy_controller.requeueLater, None),
        [policy_controller.GetPolicy "default" "web"]).
Proof.
  cbv zeta.
  assert (Hin : In (policy_controller.initialised 1700000000000000000
                      (Scenario.policy "Enforce"))
                   (writtenPolicies
                      (snd (policy_controller.Reconcile
                              {| policy_controller.getPolicy :=
                                   fun _ _ => inr (Scenario.policy "Enforce");
                                 policy_controller.updateStatus := fun _ => None;
                                 policy_controller.clock :=
                                   fun _ => 1700000000000000000 |}
                              Scenario.request []))))
    by (left; reflexivity).
  split; [exact Hin|].
  exact (policy_pass_is_idempotent _ _ _
           {| policy_controller.getPolicy :=
                fun _ _ => inr (policy_controller.initialised
                                  1700000000000000000
                                  (Scenario.policy "Enforce"));
              policy_controller.updateStatus := fun _ => None;
              policy_controller.clock := fun _ => 1700000030000000000 |}
           Scenario.request [] Hin eq_refl).
Defined.

(** X24. Unlike the pod reconciler, the policy reconciler reports a failed
    status write: when the fetched policy needs a write (it has no phase
    yet, or its generation was not observed) and the API server refuses
    that write, [Reconcile] returns that very error, asks for no requeue
    of its own and makes no further call. *)
Theorem policy_pass_reports_failed_write :
  forall world req st policy e,
    policy_controller.getPolicy world (ReqNamespace req) (ReqName req)
    = inr policy ->
    (v1alpha1.Phase (v1alpha1.Status policy) = ""
     \/ v1alpha1.Generation policy
        <> v1alpha1.ObservedGeneration (v1alpha1.Status policy)) ->
    policy_controller.updateStatus world (List.length st + 2) = Some e ->
    exists p,
      policy_controller.Reconcile world req st
      = ((emptyResult, Some e),
         (st ++ [policy_controller.GetPolicy (ReqNamespace req) (ReqName req);
                 policy_controller.ReadClock;
                 policy_controller.UpdateStatus p])%list).
Proof.
  intros world req st policy e Hget Hneeds Hfail.
  assert (Hpos : List.length
                   ((st ++ [policy_controller.GetPolicy (ReqNamespace req)
                                                        (ReqName req)])
                      ++ [policy_controller.ReadClock])%list
                 = (List.length st + 2)%nat)
    by (rewrite !length_app; cbn; lia).
  unfold policy_controller.Reconcile.
  unfold policy_controller.bind at 1, policy_controller.Get,
    policy_controller.call at 1.
  rewrite Hget.
  destruct (String.eqb_spec (v1alpha1.Phase (v1alpha1.Status policy)) "")
    as [Hfresh|Hphase].
  - unfold policy_controller.bind, policy_controller.Now,
      policy_controller.StatusUpdate, policy_controller.call.
    rewrite Hpos, Hfail. eexists. cbn. now rewrite <- !app_assoc.
  - destruct Hneeds as [H|Hgen]; [contradiction|].
    rewrite checkGeneration_run. apply Z.eqb_neq in Hgen. rewrite Hgen.
    cbv zeta. rewrite Hpos, Hfail. eexists. now rewrite <- !app_assoc.
Qed.

Lemma policy_pass_reports_failed_write_witness :
  let world :=
    {| policy_controller.getPolicy :=
         fun _ _ => inr (Scenario.policy "Enforce");
       policy_controller.updateStatus := fun _ => Some ErrConflict;
       policy_controller.clock := fun _ => 1700000000000000000 |} in
  exists p,
    policy_controller.Reconcile world Scenario.request []
    = ((emptyResult, Some ErrConflict),
       ([] ++ [policy_controller.GetPolicy "default" "web";
               policy_controller.ReadClock;
               policy_controller.UpdateStatus p])%list).
Proof.
  cbv zeta.
  apply (policy_pass_reports_failed_write
           {| policy_controller.getPolicy :=
                fun _ _ => inr (Scenario.policy "Enforce");
              policy_controller.updateStatus := fun _ => Some ErrConflict;
              policy_controller.clock := fun _ => 1700000000000000000 |}
           Scenario.request [] (Scenario.policy "Enforce") ErrConflict).
  - reflexivity.
  - left. reflexivity.
  - reflexivity.
Defined.

(* ===================================================================== *)
(** ** Further properties: allow lists and enforcement *)
(* ===================================================================== *)

(** X25. A policy without an allow list, or with the wildcard ["*"] in it,
    never reports a disallowed registry, whatever images the pod runs. *)
Theorem open_allow_list_reports_no_registry :
  forall now pod policy,
    (v1alpha1.AllowedRegistries (v1alpha1.Spec policy) = []
     \/ In "*" (v1alpha1.AllowedRegistries (v1alpha1.Spec policy))) ->
    filter (hasType "DISALLOWED_REGISTRY") (checkPodViolationsAt now pod policy)
    = [].
Proof.
  intros now pod policy Hopen.
  assert (Hnone : forall c, disallowed policy c = false).
  { intros c. unfold disallowed, v1alpha1.IsRegistryAllowed.
    destruct Hopen as [->|Hstar]; [reflexivity|].
    destruct (v1alpha1.AllowedRegistries (v1alpha1.Spec policy)) as [|a l];
      [contradiction|].
    cbn [List.length Nat.ltb Nat.leb Nat.eqb andb].
    apply negb_false_iff, existsb_exists. exists "*".
    split; [exact Hstar|apply orb_true_r]. }
  unfold checkPodViolationsAt. fold (allContainers pod).
  rewrite filter_app.
  replace (filter (hasType "DISALLOWED_REGISTRY")
                  (if corev1.HostNetwork (corev1.Spec pod) then _ else []))
    with (@nil SecurityEvent)
    by (now destruct (corev1.HostNetwork (corev1.Spec pod))).
  cbn [app]. apply length_zero_iff_nil.
  rewrite (count_flat_map (hasType "DISALLOWED_REGISTRY") _
                          (disallowed policy))
    by (intros c; apply containerViolations_counts).
  induction (allContainers pod) as [|c cs IH]; [reflexivity|].
  cbn [filter]. now rewrite Hnone.
Qed.

Lemma open_allow_list_reports_no_registry_witness :
  let policy :=
    {| v1alpha1.Name := "open";
       v1alpha1.Namespace := "default";
       v1alpha1.Generation := 1;
       v1alpha1.Spec :=
         {| v1alpha1.BlockPrivileged := true;
            v1alpha1.AllowedRegistries := ["docker.io"; "*"];
            v1alpha1.EnforcementMode := "Enforce";
            v1alpha1.TargetNamespaces := [] |};
       v1alpha1.Status := Scenario.freshStatus |} in
  let pod :=
    Scenario.pod false [Scenario.container "m" "evil.io/malware:latest" None] in
  filter (hasType "DISALLOWED_REGISTRY")
         (checkPodViolationsAt "2023-11-14T22:13:20Z" pod policy) = [].
Proof.
  cbv zeta. apply open_allow_list_reports_no_registry.
  right. cbn. tauto.
Defined.

(* ===================================================================== *)
(** ** The calls made under one policy of a pass *)
(* ===================================================================== *)

Lemma statusAfter_recorded now z policy terminated :
  statusAfter now z policy terminated = recorded now z terminated policy.
Proof. destruct terminated; reflexivity. Qed.

(** Under a policy that is not enforcing the loop over the violations makes
    exactly the calls of [auditCalls] and runs to its end. *)
Lemma violationLoop_audit_calls world r pod violations :
  forall policy st,
    v1alpha1.IsEnforcing policy = false ->
    violationLoop world r pod policy violations st
    = (None, (st ++ auditCalls world r policy violations st)%list).
Proof.
  induction violations as [|v vs IH]; intros policy st Hmode.
  - cbn. now rewrite app_nil_r.
  - rewrite violationLoop_audit_step by assumption. cbn zeta.
    rewrite statusAfter_recorded. rewrite IH by exact Hmode.
    cbn [auditCalls]. now rewrite <- !app_assoc.
Qed.

(** Under an enforcing policy the loop makes for its first violation
    exactly the calls of [terminationCalls] and returns. *)
Lemma violationLoop_termination world r pod policy violation rest st :
  v1alpha1.IsEnforcing policy = true ->
  violationLoop world r pod policy (violation :: rest) st
  = (Some (terminationResult world r violation st),
     (st ++ terminationCalls world r pod policy violation st)%list).
Proof.
  intros Hmode. rewrite violationLoop_enforce_step by assumption. cbn zeta.
  unfold terminationResult, terminationCalls. rewrite statusAfter_recorded.
  rewrite <- !app_assoc.
  destruct (deletePod world _) as [e|]; [destruct (IsNotFound e)|];
    cbn [negb]; now rewrite <- ?app_assoc.
Qed.

Lemma auditCalls_counts world r violations :
  forall policy st,
    count isUpdate (auditCalls world r policy violations st)
    = List.length violations
    /\ count isDelete (auditCalls world r policy violations st) = 0%nat.
Proof.
  induction violations as [|v vs IH]; intros policy st; [now split|].
  cbn [auditCalls]. destruct (count_posts world r v) as [Pd Pu].
  rewrite !count_app, Pd, Pu.
  destruct (IH (recorded (clock world (List.length (st ++ posts world r v)))
                         (zone world) false policy)
               (st ++ posts world r v
                   ++ [ReadClock;
                       UpdateStatus
                         (recorded
                            (clock world
                                   (List.length (st ++ posts world r v)))
                            (zone world) false policy)])%list)
    as [-> ->].
  now split.
Qed.

Lemma terminationCalls_count world r pod policy violation st :
  count isUpdate (terminationCalls world r pod policy violation st)
  = match deletePod world (List.length (st ++ posts world r violation)) with
    | Some e => if IsNotFound e then 1%nat else 0%nat
    | None => 1%nat
    end.
Proof.
  unfold terminationCalls. destruct (count_posts world r violation) as [_ Pu].
  rewrite count_app, Pu.
  destruct (deletePod world _) as [e|]; [destruct (IsNotFound e)|];
    reflexivity.
Qed.

(** The loop runs through policies that do not terminate the pod, without
    a delete, and goes on with what follows them. *)
Lemma policyLoop_through world r pod before :
  forallb (passes pod) before = true ->
  forall st,
  exists dBefore,
    count isDelete dBefore = 0%nat
    /\ forall rest,
         policyLoop world r pod (before ++ rest)%list st
         = policyLoop world r pod rest (st ++ dBefore)%list.
Proof.
  induction before as [|p ps IH]; intros Hpass st.
  - exists []. split; [reflexivity|]. intros. now rewrite app_nil_r.
  - cbn [forallb] in Hpass. apply andb_prop in Hpass as [Hp Hps].
    unfold passes in Hp. apply negb_true_iff in Hp.
    destruct (v1alpha1.ShouldApplyToNamespace p (corev1.Namespace pod))
      eqn:Happly.
    2:{ destruct (IH Hps st) as (d & Hd & Hrun). exists d.
        split; [exact Hd|]. intros rest. cbn [app policyLoop].
        rewrite Happly. apply Hrun. }
    destruct (v1alpha1.IsDisabled p) eqn:Hoff.
    { destruct (IH Hps st) as (d & Hd & Hrun). exists d.
      split; [exact Hd|]. intros rest. cbn [app policyLoop].
      rewrite Happly, Hoff. apply Hrun. }
    cbn [negb andb] in Hp.
    set (vs := checkPodViolationsAt
                 (time.FormatRFC3339 0 (clock world (List.length st))) pod p).
    destruct (v1alpha1.IsEnforcing p) eqn:Hmode.
    + cbn [andb] in Hp. apply negb_false_iff in Hp.
      assert (Hnone : vs = [])
        by now apply no_violation_iff_compliant_aux.
      destruct (IH Hps (st ++ [ReadClock])%list) as (d & Hd & Hrun).
      exists ([ReadClock] ++ d)%list. split; [exact Hd|].
      intros rest. cbn [app policyLoop]. rewrite Happly, Hoff. cbn [negb].
      unfold bind. rewrite checkPodViolations_run. fold vs. rewrite Hnone.
      cbn [violationLoop ret]. rewrite Hrun. now rewrite <- app_assoc.
    + destruct (IH Hps ((st ++ [ReadClock])
                          ++ auditCalls world r p vs (st ++ [ReadClock]))%list)
        as (d & Hd & Hrun).
      exists ([ReadClock] ++ auditCalls world r p vs (st ++ [ReadClock]) ++ d)%list.
      split.
      * rewrite !count_app, Hd.
        destruct (auditCalls_counts world r vs p (st ++ [ReadClock])%list)
          as [_ ->].
        reflexivity.
      * intros rest. cbn [app policyLoop]. rewrite Happly, Hoff. cbn [negb].
        unfold bind. rewrite checkPodViolations_run. fold vs.
        rewrite violationLoop_audit_calls by exact Hmode.
        rewrite Hrun. now rewrite <- !app_assoc.
Qed.

Lemma policyLoop_extends world r pod items st :
  exists d, snd (policyLoop world r pod items st) = (st ++ d)%list.
Proof.
  destruct (policyLoop_stops world r pod items st) as (d & Hd & _).
  now exists d.
Qed.

(** The calls and the result of the loop over the policies from a policy
    that applies and is not disabled on. *)
Lemma policyLoop_at world r pod policy after st :
  v1alpha1.ShouldApplyToNamespace policy (corev1.Namespace pod) = true ->
  v1alpha1.IsDisabled policy = false ->
  let violations :=
    checkPodViolationsAt (time.FormatRFC3339 0 (clock world (List.length st)))
                         pod policy in
  let detected := (st ++ [ReadClock])%list in
  policyLoop world r pod (policy :: after) st
  = if v1alpha1.IsEnforcing policy
    then match violations with
         | [] => policyLoop world r pod after detected
         | violation :: _ =>
             (terminationResult world r violation detected,
              (detected
                 ++ terminationCalls world r pod policy violation detected)%list)
         end
    else policyLoop world r pod after
                    (detected ++ auditCalls world r policy violations detected)%list.
Proof.
  intros Happly Hon. cbv zeta. cbn [policyLoop]. rewrite Happly, Hon.
  cbn [negb]. unfold bind. rewrite checkPodViolations_run.
  destruct (v1alpha1.IsEnforcing policy) eqn:Hmode.
  - destruct (checkPodViolationsAt _ pod policy) as [|v vs]; [reflexivity|].
    now rewrite violationLoop_termination.
  - now rewrite violationLoop_audit_calls.
Qed.

(** C2, amended. In a pass of [Reconcile] that reaches an applicable, not
    disabled policy (the pod is live and no policy listed before it
    terminates the pod), the calls made under that policy follow its
    detection and are: under a policy that is not enforcing, for each
    detected violation in order its post and one status write that carries
    what the violations so far have recorded, so that the status is written
    once per violation; under an enforcing policy with a violation, the
    post of the first violation and the delete of the pod, then exactly one
    status write, which records the termination, unless the delete is
    refused with an error other than NotFound, in which case nothing is
    written and the pass returns that error; under an enforcing policy
    without a violation, nothing.  After an enforcing policy with a
    violation the pass makes no further call. *)
Theorem status_writes_of_a_pass :
  forall world r req st pod before policy after,
    ReqNamespace req <> "kube-system" ->
    getPod world (ReqNamespace req) (ReqName req) = inr pod ->
    corev1.DeletionTimestamp pod = None ->
    corev1.Phase (corev1.Status pod) <> "Succeeded" ->
    corev1.Phase (corev1.Status pod) <> "Failed" ->
    listPolicies world = inr (before ++ policy :: after)%list ->
    forallb (passes pod) before = true ->
    v1alpha1.ShouldApplyToNamespace policy (corev1.Namespace pod) = true ->
    v1alpha1.IsDisabled policy = false ->
    exists dBefore dAfter,
      let reached :=
        (st ++ GetPod (ReqNamespace req) (ReqName req)
            :: ListPolicies :: dBefore)%list in
      let violations :=
        checkPodViolationsAt
          (time.FormatRFC3339 0 (clock world (List.length reached)))
          pod policy in
      let detected := (reached ++ [ReadClock])%list in
      let dPolicy :=
        if v1alpha1.IsEnforcing policy
        then match violations with
             | [] => []
             | violation :: _ =>
                 terminationCalls world r pod policy violation detected
             end
        else auditCalls world r policy violations detected in
      count isDelete dBefore = 0%nat
      /\ snd (Reconcile world r req st) = (detected ++ dPolicy ++ dAfter)%list
      /\ count isUpdate dPolicy
         = (if v1alpha1.IsEnforcing policy
            then match violations with
                 | [] => 0
                 | violation :: _ =>
                     match deletePod
                             world
                             (List.length
                                (detected ++ posts world r violation)) with
                     | Some e => if IsNotFound e then 1 else 0
                     | None => 1
                     end
                 end
            else List.length violations)%nat
      /\ match violations with
         | [] => True
         | violation :: _ =>
             if v1alpha1.IsEnforcing policy
             then dAfter = []
                  /\ fst (Reconcile world r req st)
                     = terminationResult world r violation detected
             else True
         end.
Proof.
  intros world r req st pod before policy after
         Hns Hget Hlive Hs Hf Hlist Hpass Happly Hon.
  set (st0 := ((st ++ [GetPod (ReqNamespace req) (ReqName req)])
                 ++ [ListPolicies])%list).
  assert (Hrun : Reconcile world r req st
                 = policyLoop world r pod (before ++ policy :: after)%list st0).
  { unfold Reconcile. apply String.eqb_neq in Hns, Hs, Hf. rewrite Hns.
    unfold bind, Get, List_, call. rewrite Hget, Hlive.
    unfold corev1.PodSucceeded, corev1.PodFailed.
    now rewrite Hs, Hf, Hlist. }
  destruct (policyLoop_through world r pod before Hpass st0)
    as (dBefore & Hquiet & Hthrough).
  assert (Hreached : (st0 ++ dBefore)%list
                     = (st ++ GetPod (ReqNamespace req) (ReqName req)
                           :: ListPolicies :: dBefore)%list)
    by (unfold st0; now rewrite <- !app_assoc).
  exists dBefore. cbv zeta.
  rewrite Hrun, Hthrough, Hreached.
  rewrite (policyLoop_at world r pod policy after _ Happly Hon). cbv zeta.
  set (reached := (st ++ GetPod (ReqNamespace req) (ReqName req)
                      :: ListPolicies :: dBefore)%list).
  set (violations := checkPodViolationsAt _ pod policy).
  set (detected := (reached ++ [ReadClock])%list).
  destruct (v1alpha1.IsEnforcing policy) eqn:Hmode.
  - destruct violations as [|v vs].
    + destruct (policyLoop_extends world r pod after detected) as (d & Hd).
      exists d. rewrite Hd. repeat split; assumption.
    + exists []. cbn [fst snd]. rewrite app_nil_r.
      split; [exact Hquiet|]. split; [reflexivity|].
      split; [apply terminationCalls_count|now split].
  - destruct (policyLoop_extends
                world r pod after
                (detected ++ auditCalls world r policy violations detected)%list)
      as (d & Hd).
    exists d. rewrite Hd, <- app_assoc.
    split; [exact Hquiet|]. split; [reflexivity|].
    split; [apply auditCalls_counts|now destruct violations].
Qed.

Lemma status_writes_of_a_pass_witness :
  let pod := Scenario.pod true [Scenario.asRoot] in
  let policy := Scenario.policy "Audit" in
  let world :=
    Scenario.cluster pod [Scenario.policy "Disabled"; policy] None in
  exists dBefore dAfter,
    let reached :=
      ([] ++ GetPod "default" "web" :: ListPolicies :: dBefore)%list in
    let violations :=
      checkPodViolationsAt
        (time.FormatRFC3339 0 (clock world (List.length reached))) pod policy in
    let detected := (reached ++ [ReadClock])%list in
    let dPolicy := auditCalls world Scenario.reconciler policy violations
                              detected in
    count isDelete dBefore = 0%nat
    /\ snd (Reconcile world Scenario.reconciler Scenario.request [])
       = (detected ++ dPolicy ++ dAfter)%list
    /\ count isUpdate dPolicy = List.length violations.
Proof.
  cbv zeta.
  assert (Hns : ReqNamespace Scenario.request <> "kube-system")
    by (cbn; discriminate).
  assert (Hs : corev1.Phase
                 (corev1.Status (Scenario.pod true [Scenario.asRoot]))
               <> "Succeeded") by (cbn; discriminate).
  assert (Hf : corev1.Phase
                 (corev1.Status (Scenario.pod true [Scenario.asRoot]))
               <> "Failed") by (cbn; discriminate).
  destruct (status_writes_of_a_pass
              (Scenario.cluster (Scenario.pod true [Scenario.asRoot])
                                [Scenario.policy "Disabled";
                                 Scenario.policy "Audit"] None)
              Scenario.reconciler Scenario.request []
              (Scenario.pod true [Scenario.asRoot])
              [Scenario.policy "Disabled"] (Scenario.policy "Audit") []
              Hns eq_refl eq_refl Hs Hf eq_refl eq_refl eq_refl eq_refl)
    as (dBefore & dAfter & Hquiet & Hrun & Hcount & _).
  exists dBefore, dAfter. split; [exact Hquiet|].
  split; [exact Hrun|exact Hcount].
Defined.

(* ===================================================================== *)
(** ** Policies with an unknown mode *)
(* ===================================================================== *)





(* ===================================================================== *)
(** ** The policy that terminates the pod *)
(* ===================================================================== *)

(** X26. A pod is terminated by the first listed policy that applies to its
    namespace, is enforcing and is violated, wherever that policy stands in
    the list: the policies before it make no delete; then the loop reads
    the clock, posts the first violation detected under the policy and
    requests the delete of the pod with grace period 0.  If the API server
    refuses the delete with an error other than NotFound, the pass ends
    there with that error; otherwise (success or NotFound) it reads the
    clock, writes the policy once, with one more violation and one more
    termination counted, phase Active, the clock reading as last
    enforcement time and the termination message, and ends without error.
    The policies after it are not looked at. *)
Theorem enforcing_policy_terminates_noncompliant_pod :
  forall world r pod before policy after st,
    forallb (passes pod) before = true ->
    v1alpha1.ShouldApplyToNamespace policy (corev1.Namespace pod) = true ->
    v1alpha1.IsEnforcing policy = true ->
    compliant policy pod = false ->
    exists dBefore violation more,
      let reached := (st ++ dBefore)%list in
      let detected := (reached ++ [ReadClock])%list in
      let sent := posts world r violation in
      let del := DeletePod (corev1.Namespace pod) (corev1.Name pod) 0 in
      let written :=
        recorded (clock world (List.length (detected ++ sent ++ [del])))
                 (zone world) true policy in
      count isDelete dBefore = 0%nat
      /\ checkPodViolationsAt
           (time.FormatRFC3339 0 (clock world (List.length reached)))
           pod policy
         = violation :: more
      /\ policyLoop world r pod (before ++ policy :: after)%list st
         = match deletePod world (List.length (detected ++ sent)) with
           | Some e =>
               if IsNotFound e
               then ((emptyResult, None),
                     (detected ++ sent
                        ++ [del; ReadClock; UpdateStatus written])%list)
               else ((emptyResult, Some e), (detected ++ sent ++ [del])%list)
           | None =>
               ((emptyResult, None),
                (detected ++ sent
                   ++ [del; ReadClock; UpdateStatus written])%list)
           end.
Proof.
  intros world r pod before policy after st Hpass Happly Hmode Hbad.
  assert (Hon : v1alpha1.IsDisabled policy = false).
  { unfold v1alpha1.IsEnforcing, v1alpha1.IsDisabled in *.
    apply orb_prop in Hmode as [H|H]; apply String.eqb_eq in H;
      now rewrite H. }
  destruct (policyLoop_through world r pod before Hpass st)
    as (dBefore & Hquiet & Hthrough).
  exists dBefore.
  destruct (checkPodViolationsAt
              (time.FormatRFC3339
                 0 (clock world (List.length (st ++ dBefore)%list)))
              pod policy) as [|v vs] eqn:Evs.
  { apply violations_nil_compliant in Evs. congruence. }
  exists v, vs. cbv zeta. split; [exact Hquiet|]. split; [exact Evs|].
  rewrite Hthrough, (policyLoop_at world r pod policy after _ Happly Hon).
  cbv zeta. rewrite Hmode, Evs.
  unfold terminationResult, terminationCalls.
  destruct (deletePod world _) as [e|]; [destruct (IsNotFound e)|];
    reflexivity.
Qed.

Lemma enforcing_policy_terminates_noncompliant_pod_witness :
  let privileged :=
    Scenario.container "app" "nginx"
      (Some {| corev1.Privileged := Some true; corev1.RunAsUser := None |}) in
  let pod := Scenario.pod false [privileged] in
  let policy := Scenario.policy "Enforce" in
  let world := Scenario.cluster pod [] None in
  exists dBefore violation more,
    let reached := ([] ++ dBefore)%list in
    let detected := (reached ++ [ReadClock])%list in
    let sent := posts world Scenario.reconciler violation in
    let del := DeletePod "default" "web" 0 in
    let written :=
      recorded (clock world (List.length (detected ++ sent ++ [del])))
               0 true policy in
    count isDelete dBefore = 0%nat
    /\ checkPodViolationsAt
         (time.FormatRFC3339 0 (clock world (List.length reached))) pod policy
       = violation :: more
    /\ policyLoop world Scenario.reconciler pod
                  ([Scenario.policy "Audit"; Scenario.policy "Disabled"]
                     ++ policy :: [Scenario.policy "Audit"])%list []
       = ((emptyResult, None),
          (detected ++ sent ++ [del; ReadClock; UpdateStatus written])%list).
Proof.
  cbv zeta.
  apply (enforcing_policy_terminates_noncompliant_pod
           (Scenario.cluster
              (Scenario.pod false
                 [Scenario.container "app" "nginx"
                    (Some {| corev1.Privileged := Some true;
                             corev1.RunAsUser := None |})])
              [] None)
           Scenario.reconciler
           (Scenario.pod false
              [Scenario.container "app" "nginx"
                 (Some {| corev1.Privileged := Some true;
                          corev1.RunAsUser := None |})])
           [Scenario.policy "Audit"; Scenario.policy "Disabled"]
           (Scenario.policy "Enforce") [Scenario.policy "Audit"] []);
    reflexivity.
Defined.
